(** * usdb_syncer: song data, media download and filter tree

    A shallow embedding of [usdb_syncer/song_data.py],
    [usdb_syncer/resource_dl.py] and [usdb_syncer/gui/search_tree/tree.py],
    with the properties their specification states about them.

    Python values are modelled as follows.
    - [str] is a list of Unicode code points ([N]); [py "..."] turns a
      literal into such a list.
    - [int] is [Z].
    - [X | None] is [option X].
    - Code that touches the file system, the network or the logger is
      written in a small monad that records what was done. *)

From Stdlib Require Import List String Ascii NArith ZArith Bool Lia.
From Stdlib Require Import DecimalString.
Import ListNotations.

Set Implicit Arguments.

(** ** Python strings *)

Module Py.

Definition char : Type := N.
Definition str : Type := list char.

(** A string literal, as its code points. *)
Definition py (x : string) : str :=
  List.map N_of_ascii (list_ascii_of_string x).

(** [a == b] on strings. *)
Fixpoint str_eqb (a b : str) : bool :=
  match a, b with
  | [], [] => true
  | x :: a', y :: b' => N.eqb x y && str_eqb a' b'
  | _, _ => false
  end.

(** [s.startswith(prefix)]. *)
Fixpoint startswith (s prefix : str) {struct prefix} : bool :=
  match prefix, s with
  | [], _ => true
  | p :: prefix', c :: s' => N.eqb p c && startswith s' prefix'
  | _ :: _, [] => false
  end.

(** [s.endswith(suffix)]. *)
Definition endswith (s suffix : str) : bool :=
  startswith (rev s) (rev suffix).

(** [sub in s]: [sub] occurs in [s] at some position. *)
Fixpoint str_in (sub s : str) : bool :=
  startswith s sub ||
  match s with
  | [] => false
  | _ :: s' => str_in sub s'
  end.

(** The substring relation that [str_in] decides. *)
Definition Substring (sub s : str) : Prop :=
  exists pre post, s = pre ++ sub ++ post.

(** [s.replace(old, new)] for a non-empty [old]: occurrences are found from
    the left and do not overlap.  [skip] counts the characters of a match
    that are still to be passed over. *)
Fixpoint replace_from (old new : str) (skip : nat) (s : str) : str :=
  match s with
  | [] => []
  | c :: s' =>
      match skip with
      | S k => replace_from old new k s'
      | O =>
          if startswith s old
          then new ++ replace_from old new (List.length old - 1) s'
          else c :: replace_from old new 0 s'
      end
  end.

(** [s.replace(old, new)].  With an empty [old], Python puts [new] before
    every character and at the end. *)
Definition replace (old new s : str) : str :=
  match old with
  | [] => new ++ flat_map (fun c => c :: new) s
  | _ :: _ => replace_from old new 0 s
  end.

(** [str(n)] for an [int]. *)
Definition str_int (n : Z) : str :=
  py (NilZero.string_of_int (Z.to_int n)).

(** [bool(s)] for a string: the empty string is falsy. *)
Definition truthy (s : str) : bool :=
  match s with
  | [] => false
  | _ :: _ => true
  end.

(** [bool(s)] for [s : str | None]. *)
Definition truthy_opt (s : option str) : bool :=
  match s with
  | None => false
  | Some s' => truthy s'
  end.

(** *** Facts about the string operations *)

Lemma str_eqb_eq (a b : str) : str_eqb a b = true <-> a = b.
Proof.
  revert b; induction a as [|x a IH]; intros [|y b]; simpl;
    try (split; [discriminate | congruence]); try tauto.
  rewrite andb_true_iff, N.eqb_eq, IH.
  split; [intros [-> ->]; reflexivity | intros E; injection E; auto].
Qed.

Lemma str_eqb_refl (a : str) : str_eqb a a = true.
Proof. apply str_eqb_eq; reflexivity. Qed.

Lemma startswith_prefix (s prefix : str) :
  startswith s prefix = true <-> exists post, s = prefix ++ post.
Proof.
  revert s; induction prefix as [|p prefix IH]; intros s; simpl.
  - split; [intros _; exists s; reflexivity | reflexivity].
  - destruct s as [|c s].
    + split; [discriminate | intros [post E]; discriminate].
    + rewrite andb_true_iff, N.eqb_eq, IH.
      split.
      * intros [-> [post ->]]; exists post; reflexivity.
      * intros [post E]; injection E as -> ->; split; eauto.
Qed.

Lemma str_in_Substring (sub s : str) :
  str_in sub s = true <-> Substring sub s.
Proof.
  unfold Substring; induction s as [|c s IH].
  - simpl; rewrite orb_false_r, startswith_prefix; split.
    + intros [post E]; exists [], post; exact E.
    + intros [pre [post E]].
      destruct pre; [exists post; exact E | discriminate].
  - cbn [str_in]; rewrite orb_true_iff, startswith_prefix, IH; split.
    + intros [[post E] | [pre [post E]]].
      * exists [], post; exact E.
      * exists (c :: pre), post; rewrite E; reflexivity.
    + intros [[|x pre] [post E]].
      * left; exists post; exact E.
      * right; injection E as _ E; exists pre, post; exact E.
Qed.

Lemma str_in_false (sub s : str) :
  str_in sub s = false <-> ~ Substring sub s.
Proof.
  rewrite <- str_in_Substring; destruct (str_in sub s); split;
    congruence.
Qed.

Lemma str_in_empty (s : str) : str_in [] s = true.
Proof. destruct s; reflexivity. Qed.

Lemma Substring_tail (sub s : str) (c : char) :
  Substring sub s -> Substring sub (c :: s).
Proof.
  intros [pre [post ->]]; exists (c :: pre), post; reflexivity.
Qed.

Lemma Substring_prefix (sub s : str) :
  startswith s sub = true -> Substring sub s.
Proof.
  rewrite startswith_prefix; intros [post ->]; exists [], post; reflexivity.
Qed.

(** Replacing a pattern that does not occur changes nothing. *)
Lemma replace_from_absent (old new s : str) :
  old <> [] -> ~ Substring old s -> replace_from old new 0 s = s.
Proof.
  intros Hne; induction s as [|c s IH]; intros Hno; [reflexivity|].
  cbn [replace_from].
  destruct (startswith (c :: s) old) eqn:E.
  - exfalso; apply Hno, Substring_prefix, E.
  - f_equal; apply IH; intros H; apply Hno, Substring_tail, H.
Qed.

Lemma replace_absent (old new s : str) :
  old <> [] -> ~ Substring old s -> replace old new s = s.
Proof.
  intros Hne Hno; destruct old as [|o old]; [congruence|].
  apply replace_from_absent; assumption.
Qed.

(** *** Characters that a replacement cannot bring in *)

Lemma Substring_refl (s : str) : Substring s s.
Proof. exists [], []; rewrite app_nil_r; reflexivity. Qed.

Lemma Substring_trans (a b c : str) :
  Substring a b -> Substring b c -> Substring a c.
Proof.
  intros [p1 [q1 ->]] [p2 [q2 ->]].
  exists (p2 ++ p1), (q1 ++ q2); rewrite !app_assoc; reflexivity.
Qed.

Lemma Substring_In (sub s : str) (c : char) :
  Substring sub s -> In c sub -> In c s.
Proof.
  intros [pre [post ->]] Hin; rewrite !in_app_iff; tauto.
Qed.

(** A character that is neither in the text nor in the replacement is not in
    the result. *)
Lemma replace_from_keeps_out (c : char) (old new : str) :
  ~ In c new ->
  forall (s : str) (skip : nat),
    ~ In c s -> ~ In c (replace_from old new skip s).
Proof.
  intros Hnew; induction s as [|x s IH]; intros skip Hs; [exact Hs|].
  assert (Hx : x <> c) by (intros ->; apply Hs; left; reflexivity).
  assert (Hs' : ~ In c s) by (intros H; apply Hs; right; exact H).
  cbn [replace_from]; destruct skip as [|k]; [|apply IH, Hs'].
  destruct (startswith (x :: s) old).
  - rewrite in_app_iff; intros [H | H]; [exact (Hnew H)|].
    exact (IH _ Hs' H).
  - intros [H | H]; [exact (Hx H) | exact (IH _ Hs' H)].
Qed.

Lemma replace_keeps_out (c : char) (old new s : str) :
  ~ In c new -> ~ In c s -> ~ In c (replace old new s).
Proof.
  intros Hnew Hs; destruct old as [|o old]; simpl.
  - rewrite in_app_iff, in_flat_map; intros [H | [x [Hx [<- | H]]]]; tauto.
  - apply replace_from_keeps_out; assumption.
Qed.

(** Replacing a single character removes every occurrence of it. *)
Lemma replace_char_removes (c : char) (new s : str) :
  ~ In c new -> ~ In c (replace [c] new s).
Proof.
  intros Hnew; simpl.
  induction s as [|x s IH]; [simpl; tauto|].
  cbn [replace_from startswith List.length Nat.sub].
  rewrite andb_true_r.
  destruct (N.eqb_spec c x) as [<- | Hneq].
  - rewrite in_app_iff; tauto.
  - intros [H | H]; [congruence | exact (IH H)].
Qed.

(** *** The characters of [str(n)] *)

Definition is_digit (c : char) : bool := ((48 <=? c) && (c <=? 57))%N.

Lemma string_of_uint_digits (d : Decimal.uint) :
  forallb is_digit (py (NilEmpty.string_of_uint d)) = true.
Proof. induction d; simpl; try reflexivity; exact IHd. Qed.

(** [str(n)] is a run of digits, after a minus sign when [n] is negative. *)
Lemma str_int_chars (n : Z) (c : char) :
  In c (str_int n) -> is_digit c = true \/ c = 45%N.
Proof.
  assert (Huint : forall d : Decimal.uint,
             In c (py (NilZero.string_of_uint d)) -> is_digit c = true).
  { intros d; unfold NilZero.string_of_uint.
    pose proof (string_of_uint_digits d) as Hd.
    rewrite forallb_forall in Hd.
    destruct d; try (apply Hd).
    simpl; intros [<- | []]; reflexivity. }
  unfold str_int, NilZero.string_of_int.
  destruct (Z.to_int n) as [d | d].
  - intros H; left; apply (Huint d H).
  - simpl; intros [<- | H]; [right; reflexivity | left; apply (Huint d H)].
Qed.

(** *** First and last characters *)

Lemma startswith_app_char (s t : str) (c : char) :
  s <> [] -> startswith (s ++ t) [c] = startswith s [c].
Proof. destruct s as [|x s]; [congruence | reflexivity]. Qed.

Lemma endswith_app_char (s t : str) (c : char) :
  t <> [] -> endswith (s ++ t) [c] = endswith t [c].
Proof.
  intros Ht; unfold endswith; rewrite rev_app_distr.
  apply startswith_app_char.
  destruct t as [|x t]; [congruence|].
  simpl; intros H; apply app_eq_nil in H as [_ H]; discriminate.
Qed.

End Py.

(** ** [os.path] (POSIX flavour) *)

Module OsPath.
Import Py.

Definition sep : str := py "/".

(** One step of [os.path.join]: an absolute component replaces what was
    joined so far; otherwise it is appended, after a separator unless the
    path is empty or already ends with one. *)
Definition join_step (path b : str) : str :=
  if startswith b sep then b
  else if negb (truthy path) || endswith path sep then path ++ b
  else path ++ sep ++ b.

(** [os.path.join(a, *p)]. *)
Definition join (a : str) (p : list str) : str :=
  fold_left join_step p a.

(** [s.rfind(c)] for a single character: the last index, or [-1]. *)
Fixpoint rfind_from (c : char) (s : str) (i found : Z) : Z :=
  match s with
  | [] => found
  | x :: s' => rfind_from c s' (i + 1)%Z (if N.eqb x c then i else found)
  end.

Definition rfind (c : char) (s : str) : Z := rfind_from c s 0%Z (-1)%Z.

(** [s[a:b]] for indices within the string. *)
Definition slice (s : str) (a b : Z) : str :=
  firstn (Z.to_nat (b - a)) (skipn (Z.to_nat a) s).

(** [os.path.splitext(p)]: the extension starts at the last dot of the last
    component, unless that component has only dots before it. *)
Definition splitext (p : str) : str * str :=
  let dot := 46%N in
  let sepIndex := rfind 47%N p in
  let dotIndex := rfind dot p in
  if (sepIndex <? dotIndex)%Z
     && existsb (fun x => negb (N.eqb x dot)) (slice p (sepIndex + 1) dotIndex)
  then (firstn (Z.to_nat dotIndex) p, skipn (Z.to_nat dotIndex) p)
  else (p, []).

Example join_relative :
  join (py "songs") [py "Abba - Waterloo"; py "42"]
  = py "songs/Abba - Waterloo/42".
Proof. reflexivity. Qed.

Example join_absolute_component :
  join (py "songs") [py "/etc"; py "42"] = py "/etc/42".
Proof. reflexivity. Qed.

Example splitext_plain : splitext (py "out/clip.tar.mp4") = (py "out/clip.tar", py ".mp4").
Proof. reflexivity. Qed.

Example splitext_dotfile : splitext (py "out/.hidden") = (py "out/.hidden", []).
Proof. reflexivity. Qed.

Lemma join_step_absolute (path b : str) :
  startswith b sep = true -> join_step path b = b.
Proof. intros H; unfold join_step; rewrite H; reflexivity. Qed.

Lemma join_step_relative (path b : str) :
  startswith b sep = false -> truthy path = true ->
  endswith path sep = false ->
  join_step path b = path ++ sep ++ b.
Proof.
  intros Hb Hpath Hend; unfold join_step; rewrite Hb, Hpath, Hend.
  reflexivity.
Qed.

(** Without the character, [rfind] keeps what was found before. *)
Lemma rfind_from_absent (c : char) (s : str) (i found : Z) :
  ~ In c s -> rfind_from c s i found = found.
Proof.
  revert i found; induction s as [|x s IH]; intros i found Hs; [reflexivity|].
  cbn [rfind_from].
  destruct (N.eqb_spec x c) as [-> | _]; [exfalso; apply Hs; left; reflexivity|].
  apply IH; intros H; apply Hs; right; exact H.
Qed.

Lemma rfind_from_lower (c : char) (s : str) (i found : Z) :
  (-1 <= found -> 0 <= i -> -1 <= rfind_from c s i found)%Z.
Proof.
  revert i found; induction s as [|x s IH]; intros i found Hf Hi; [exact Hf|].
  cbn [rfind_from]; apply IH; [destruct (N.eqb x c)|]; lia.
Qed.

(** A path without a dot has no extension. *)
Lemma splitext_no_dot (p : str) : ~ In 46%N p -> splitext p = (p, []).
Proof.
  intros Hdot; unfold splitext, rfind.
  rewrite (@rfind_from_absent 46%N p 0%Z (-1)%Z Hdot).
  pose proof (@rfind_from_lower 47%N p 0%Z (-1)%Z) as Hsep.
  destruct (Z.ltb_spec (rfind_from 47%N p 0 (-1)) (-1)); [lia | reflexivity].
Qed.

End OsPath.

(** ** [usdb_syncer/song_data.py] *)

Module SongData.
Import Py.

(** Modelled from the spec: [UsdbSong] is declared in [usdb_scraper], which
    is not among the sources; the fields are those the spec lists for a song
    record and the code reads. *)
Record UsdbSong : Type := {
  song_id : Z;
  artist : str;
  title : str;
  language : str;
  edition : str;
  golden_notes : bool;
  rating : Z;
  views : Z
}.

(** Modelled from the spec: the parsed notes object of [notes_parser], of
    which the code reads the four media headers. *)
Record Headers : Type := {
  mp3 : option str;
  video : option str;
  cover : option str;
  background : option str
}.

Record SongTxt : Type := { headers : Headers }.

(** Modelled from the spec: the columns of [gui.song_table.column], the
    eight text columns and the five status-icon columns the two [match]
    statements name. *)
Inductive Column : Type :=
| SONG_ID | ARTIST | TITLE | LANGUAGE | EDITION | GOLDEN_NOTES | RATING | VIEWS
| TXT | AUDIO | VIDEO | COVER | BACKGROUND.

Scheme Equality for Column.

Definition text_columns : list Column :=
  [SONG_ID; ARTIST; TITLE; LANGUAGE; EDITION; GOLDEN_NOTES; RATING; VIEWS].

Definition icon_columns : list Column :=
  [TXT; AUDIO; VIDEO; COVER; BACKGROUND].

(** [QIcon(path)]. *)
Inductive QIcon : Type := QIcon_of (path : str).

(** What a [match] statement ends with: a value returned by an arm, or
    [assert_never] reached. *)
Inductive Matched (A : Type) : Type :=
| Returned (a : A)
| AssertNever.
Arguments AssertNever {A}.

(** A [match col:] statement: the arms are tried in order, an arm
    [case P1 | P2 | ...] is taken when [col] equals one of its patterns, and
    [case _ as unreachable] is what remains. *)
Fixpoint py_match (A S : Type) (arms : list (list Column * (S -> A)))
    (self : S) (col : Column) : Matched A :=
  match arms with
  | [] => AssertNever
  | (patterns, body) :: rest =>
      if existsb (Column_beq col) patterns then Returned (body self)
      else py_match rest self col
  end.

(** The number of arms whose pattern [col] matches. *)
Definition arms_taken (A S : Type) (arms : list (list Column * (S -> A)))
    (col : Column) : nat :=
  List.length (filter (fun arm => existsb (Column_beq col) (fst arm)) arms).

(** *** Fuzzy search text *)

Record FuzzySearchText : Type := {
  fuzzy_song_id : str;
  fuzzy_artist : str;
  fuzzy_title : str;
  fuzzy_language : str;
  fuzzy_edition : str
}.

Definition REPLACEMENTS : list (str * str) :=
  [ (py " vs. ", py " vs  ");
    (py " & ", py " and ");
    (py "&", py " and ");
    (py " + ", py " and ");
    (py " ft. ", py " feat. ");
    (py " ft ", py " feat. ");
    (py " feat ", py " feat. ");
    (py "!", py "");
    (py "?", py "");
    (py "/", py "") ].

(** The loop [for old, new in replacements: text = text.replace(old, new)]. *)
Definition replace_each (replacements : list (str * str)) (text : str) : str :=
  fold_left (fun t r => replace (fst r) (snd r) t) replacements text.

(** Some pattern of [replacements] occurs in [text]. *)
Definition has_pattern (replacements : list (str * str)) (text : str) : bool :=
  existsb (fun r => str_in (fst r) text) replacements.

(** [unidecode] on text that is ASCII already: the library returns it as it
    is.  Other characters are dropped here, as with an empty table. *)
Definition unidecode_ascii (text : str) : str :=
  filter (fun c => (c <? 128)%N) text.

(** [str.lower] on ASCII text. *)
Definition lower_ascii (text : str) : str :=
  List.map (fun c => if ((65 <=? c) && (c <=? 90))%N then (c + 32)%N else c) text.

(** *** File system *)

(** What the code asks of the file system. *)
Inductive fs_event : Type :=
| Exists (path : str)
| Read (path : str).

Record FS : Type := {
  fs_exists : str -> bool;         (* os.path.exists *)
  fs_read : str -> option str      (* try_read_unknown_encoding *)
}.

(** A computation that reads the file system and records its requests. *)
Definition IO (A : Type) : Type := FS -> A * list fs_event.

Definition ret (A : Type) (a : A) : IO A := fun _ => (a, []).

Definition bind (A B : Type) (m : IO A) (k : A -> IO B) : IO B :=
  fun fs =>
    let (a, t1) := m fs in
    let (b, t2) := k a fs in
    (b, t1 ++ t2).

Notation "x <- m ;; k" := (bind m (fun x => k))
  (at level 61, m at next level, right associativity).

Definition os_path_exists (path : str) : IO bool :=
  fun fs => (fs_exists fs path, [Exists path]).

Definition try_read_unknown_encoding (path : str) : IO (option str) :=
  fun fs => (fs_read fs path, [Read path]).

Definition is_read (e : fs_event) : bool :=
  match e with
  | Read _ => true
  | Exists _ => false
  end.

Record SongData : Type := {
  data : UsdbSong;
  fuzzy_text : FuzzySearchText;
  local_txt : bool;
  local_audio : bool;
  local_video : bool;
  local_cover : bool;
  local_background : bool
}.

(** [f"{song.artist} - {song.title}"]. *)
Definition artist_title (song : UsdbSong) : str :=
  artist song ++ py " - " ++ title song.

Definition _song_folder_path (song : UsdbSong) (song_dir : str) : str :=
  OsPath.join song_dir [artist_title song; str_int (song_id song)].

(** The marker file [_get_song_txt] looks for. *)
Definition marker_path (song : UsdbSong) (song_dir : str) : str :=
  OsPath.join (_song_folder_path song song_dir)
    [str_int (song_id song) ++ py ".usdb"].

Definition _file_exists (folder : str) (fname : option str) : IO bool :=
  match fname with
  | Some name =>
      if truthy name then os_path_exists (OsPath.join folder [name])
      else ret false
  | None => ret false
  end.

(** The character U+2605 (black star). *)
Definition star : str := [9733%N].

Definition rating_str (rating : Z) : str :=
  List.concat (repeat star (Z.to_nat rating)).

Definition yes_no_str (yes : bool) : str :=
  if yes then py "Yes" else py "No".

Definition optional_check_icon (yes : bool) : option QIcon :=
  if yes then Some (QIcon_of (py ":/icons/tick.png")) else None.

Section WithLibraries.

(** The [unidecode] library and [str.lower], and the notes parser
    [SongTxt.try_parse] (its logger argument left out). *)
Variable unidecode : str -> str.
Variable lower : str -> str.
Variable try_parse : str -> option SongTxt.

Definition fuzz_text (text : str) : str :=
  replace_each REPLACEMENTS (lower (unidecode text)).

(** [FuzzySearchText.__init__]. *)
Definition FuzzySearchText_init (song : UsdbSong) : FuzzySearchText :=
  {| fuzzy_song_id := str_int (song_id song);
     fuzzy_artist := fuzz_text (artist song);
     fuzzy_title := fuzz_text (title song);
     fuzzy_language := fuzz_text (language song);
     fuzzy_edition := fuzz_text (edition song) |}.

(** [FuzzySearchText.__contains__]. *)
Definition FuzzySearchText_contains (self : FuzzySearchText) (text : str) : bool :=
  existsb (fun attr => str_in text attr)
    [fuzzy_song_id self; fuzzy_artist self; fuzzy_title self;
     fuzzy_language self; fuzzy_edition self].

Definition _get_song_txt (song : UsdbSong) (song_dir : str) : IO (option SongTxt) :=
  let folder :=
    OsPath.join song_dir [artist_title song; str_int (song_id song)] in
  marker <- os_path_exists
              (OsPath.join folder [str_int (song_id song) ++ py ".usdb"]) ;;
  if negb marker then ret None
  else
    let txt_path := OsPath.join folder [artist_title song ++ py ".txt"] in
    found <- os_path_exists txt_path ;;
    if found then
      contents <- try_read_unknown_encoding txt_path ;;
      match contents with
      | Some text => if truthy text then ret (try_parse text) else ret None
      | None => ret None
      end
    else ret None.

(** [bool(txt)] for [txt : SongTxt | None]: a parsed object is truthy. *)
Definition bool_txt (txt : option SongTxt) : bool :=
  match txt with
  | Some _ => true
  | None => false
  end.

(** [_file_exists(folder, header) if txt else False]. *)
Definition header_exists (folder : str) (txt : option SongTxt)
    (header : Headers -> option str) : IO bool :=
  match txt with
  | Some t => _file_exists folder (header (headers t))
  | None => ret false
  end.

Definition from_usdb_song (song : UsdbSong) (song_dir : str) : IO SongData :=
  let folder := _song_folder_path song song_dir in
  txt <- _get_song_txt song song_dir ;;
  audio <- header_exists folder txt mp3 ;;
  video_ <- header_exists folder txt video ;;
  cover_ <- header_exists folder txt cover ;;
  background_ <- header_exists folder txt background ;;
  ret {| data := song;
         fuzzy_text := FuzzySearchText_init song;
         local_txt := bool_txt txt;
         local_audio := audio;
         local_video := video_;
         local_cover := cover_;
         local_background := background_ |}.

End WithLibraries.

Definition display_arms : list (list Column * (SongData -> option str)) :=
  [ ([SONG_ID], fun self => Some (str_int (song_id (data self))));
    ([ARTIST], fun self => Some (artist (data self)));
    ([TITLE], fun self => Some (title (data self)));
    ([LANGUAGE], fun self => Some (language (data self)));
    ([EDITION], fun self => Some (edition (data self)));
    ([GOLDEN_NOTES], fun self => Some (yes_no_str (golden_notes (data self))));
    ([RATING], fun self => Some (rating_str (rating (data self))));
    ([VIEWS], fun self => Some (str_int (views (data self))));
    ([TXT; AUDIO; VIDEO; COVER; BACKGROUND], fun _ => None) ].

Definition display_data (self : SongData) (col : Column) : Matched (option str) :=
  py_match display_arms self col.

Definition decoration_arms : list (list Column * (SongData -> option QIcon)) :=
  [ ([SONG_ID; ARTIST; TITLE; LANGUAGE; EDITION; GOLDEN_NOTES; RATING; VIEWS],
     fun _ => None);
    ([TXT], fun self => optional_check_icon (local_txt self));
    ([AUDIO], fun self => optional_check_icon (local_audio self));
    ([VIDEO], fun self => optional_check_icon (local_video self));
    ([COVER], fun self => optional_check_icon (local_cover self));
    ([BACKGROUND], fun self => optional_check_icon (local_background self)) ].

Definition decoration_data (self : SongData) (col : Column) : Matched (option QIcon) :=
  py_match decoration_arms self col.

(** *** Sample data for the examples *)

Definition waterloo : UsdbSong :=
  {| song_id := 42; artist := py "Abba"; title := py "Waterloo";
     language := py "English"; edition := py "Pop"; golden_notes := true;
     rating := 4; views := 1200 |}.

Definition empty_fs : FS :=
  {| fs_exists := fun _ => false; fs_read := fun _ => None |}.

(** A song folder that holds the marker and a notes file. *)
Definition synced_fs : FS :=
  {| fs_exists := fun p =>
       str_eqb p (py "songs/Abba - Waterloo/42/42.usdb")
       || str_eqb p (py "songs/Abba - Waterloo/42/Abba - Waterloo.txt")
       || str_eqb p (py "songs/Abba - Waterloo/42/cover.jpg");
     fs_read := fun p =>
       if str_eqb p (py "songs/Abba - Waterloo/42/Abba - Waterloo.txt")
       then Some (py "#TITLE:Waterloo") else None |}.

(** A parser that finds a cover and an empty audio header in every text. *)
Definition parse_cover_only (text : str) : option SongTxt :=
  Some {| headers := {| mp3 := Some []; video := None;
                        cover := Some (py "cover.jpg"); background := None |} |}.

(** *** Properties *)

Lemma replace_each_absent (replacements : list (str * str)) (text : str) :
  Forall (fun r => fst r <> []) replacements ->
  has_pattern replacements text = false ->
  replace_each replacements text = text.
Proof.
  unfold replace_each, has_pattern.
  induction replacements as [|[old new] rs IH]; intros Hne Hno; [reflexivity|].
  simpl in *.
  apply orb_false_iff in Hno as [Hold Hrs].
  inversion Hne as [|? ? Hold_ne Hrs_ne]; subst.
  rewrite replace_absent.
  - apply IH; assumption.
  - exact Hold_ne.
  - apply str_in_false, Hold.
Qed.

Lemma REPLACEMENTS_nonempty : Forall (fun r => fst r <> []) REPLACEMENTS.
Proof. repeat constructor; discriminate. Qed.

Example fuzz_text_sample :
  fuzz_text unidecode_ascii lower_ascii (py "Simon & Garfunkel ft. Who?")
  = py "simon and garfunkel feat. who".
Proof. reflexivity. Qed.

Example marker_path_sample :
  marker_path waterloo (py "songs") = py "songs/Abba - Waterloo/42/42.usdb".
Proof. reflexivity. Qed.

Example from_usdb_song_synced :
  let (sd, trace) :=
    from_usdb_song unidecode_ascii lower_ascii parse_cover_only
      waterloo (py "songs") synced_fs in
  (local_txt sd, local_audio sd, local_video sd, local_cover sd,
   local_background sd) = (true, false, false, true, false)
  /\ trace =
     [ Exists (py "songs/Abba - Waterloo/42/42.usdb");
       Exists (py "songs/Abba - Waterloo/42/Abba - Waterloo.txt");
       Read (py "songs/Abba - Waterloo/42/Abba - Waterloo.txt");
       Exists (py "songs/Abba - Waterloo/42/cover.jpg") ].
Proof. split; reflexivity. Qed.

Section Presence.

Variable unidecode : str -> str.
Variable lower : str -> str.
Variable try_parse : str -> option SongTxt.
Variable fs : FS.
Variable song : UsdbSong.
Variable song_dir : str.

Let result : SongData * list fs_event :=
  from_usdb_song unidecode lower try_parse song song_dir fs.
Let txt : option SongTxt := fst (_get_song_txt try_parse song song_dir fs).
Let folder : str := _song_folder_path song song_dir.

(** Each field of the record is what the corresponding keyword argument
    evaluates to. *)
Lemma from_usdb_song_fields :
  local_txt (fst result) = bool_txt txt
  /\ local_audio (fst result) = fst (header_exists folder txt mp3 fs)
  /\ local_video (fst result) = fst (header_exists folder txt video fs)
  /\ local_cover (fst result) = fst (header_exists folder txt cover fs)
  /\ local_background (fst result) = fst (header_exists folder txt background fs).
Proof.
  unfold result, txt, folder, from_usdb_song, bind.
  destruct (_get_song_txt try_parse song song_dir fs) as [t t0]; cbn [fst].
  destruct (header_exists _ t mp3 fs), (header_exists _ t video fs),
    (header_exists _ t cover fs), (header_exists _ t background fs).
  repeat split.
Qed.

(** The file system requests are those of [_get_song_txt] followed by those
    of the four header checks. *)
Lemma from_usdb_song_trace :
  snd result =
    snd (_get_song_txt try_parse song song_dir fs)
    ++ snd (header_exists folder txt mp3 fs)
    ++ snd (header_exists folder txt video fs)
    ++ snd (header_exists folder txt cover fs)
    ++ snd (header_exists folder txt background fs).
Proof.
  unfold result, txt, folder, from_usdb_song, bind.
  destruct (_get_song_txt try_parse song song_dir fs) as [t t0]; cbn [fst snd].
  destruct (header_exists _ t mp3 fs), (header_exists _ t video fs),
    (header_exists _ t cover fs), (header_exists _ t background fs).
  cbn [fst snd ret]; rewrite !app_nil_r; reflexivity.
Qed.

(** Without the marker [_get_song_txt] returns [None] after that one
    check. *)
Lemma get_song_txt_without_marker :
  fs_exists fs (marker_path song song_dir) = false ->
  _get_song_txt try_parse song song_dir fs
  = (None, [Exists (marker_path song song_dir)]).
Proof.
  intros Hmarker.
  unfold _get_song_txt, bind, os_path_exists.
  unfold marker_path, _song_folder_path in Hmarker.
  rewrite Hmarker; reflexivity.
Qed.

(** An empty or missing file name is reported absent, and the file system
    is not asked. *)
Lemma file_exists_falsy (dir : str) (fname : option str) :
  truthy_opt fname = false -> _file_exists dir fname fs = (false, []).
Proof.
  destruct fname as [[|c name]|]; simpl; intros H;
    [reflexivity | discriminate | reflexivity].
Qed.

End Presence.

(** C1: when the marker file [<id>.usdb] does not exist in the computed song
    folder, [SongData.from_usdb_song] returns a record whose five presence
    flags are all false, and the only file system request made is the check
    for the marker: no notes file is read. *)
Theorem from_usdb_song_without_marker
    (unidecode lower : str -> str) (try_parse : str -> option SongTxt)
    (fs : FS) (song : UsdbSong) (song_dir : str) :
  fs_exists fs (marker_path song song_dir) = false ->
  let result := from_usdb_song unidecode lower try_parse song song_dir fs in
  local_txt (fst result) = false
  /\ local_audio (fst result) = false
  /\ local_video (fst result) = false
  /\ local_cover (fst result) = false
  /\ local_background (fst result) = false
  /\ snd result = [Exists (marker_path song song_dir)]
  /\ existsb is_read (snd result) = false.
Proof.
  intros Hmarker result.
  pose proof (from_usdb_song_fields unidecode lower try_parse fs song song_dir)
    as (Htxt & Haudio & Hvideo & Hcover & Hbackground).
  pose proof (from_usdb_song_trace unidecode lower try_parse fs song song_dir)
    as Htrace.
  rewrite (get_song_txt_without_marker try_parse fs song song_dir Hmarker)
    in Htxt, Haudio, Hvideo, Hcover, Hbackground, Htrace.
  cbn in Htxt, Haudio, Hvideo, Hcover, Hbackground, Htrace.
  subst result.
  rewrite Htxt, Haudio, Hvideo, Hcover, Hbackground, Htrace.
  repeat split; reflexivity.
Qed.

Lemma from_usdb_song_without_marker_witness :
  fs_exists empty_fs (marker_path waterloo (py "songs")) = false
  /\ snd (from_usdb_song unidecode_ascii lower_ascii parse_cover_only
            waterloo (py "songs") empty_fs)
     = [Exists (py "songs/Abba - Waterloo/42/42.usdb")].
Proof.
  split; [reflexivity|].
  apply (from_usdb_song_without_marker unidecode_ascii lower_ascii
           parse_cover_only empty_fs waterloo (py "songs")).
  reflexivity.
Defined.

(** C9: [_file_exists] returns [False] for a file name that is [None] or
    empty without asking the file system; so, also when the marker exists
    and the notes file parses, each of the audio, video, cover and background
    flags is false whenever its header in the parsed notes is [None] or the
    empty string. *)
Theorem from_usdb_song_empty_header
    (unidecode lower : str -> str) (try_parse : str -> option SongTxt)
    (fs : FS) (song : UsdbSong) (song_dir : str) (txt : SongTxt) :
  fst (_get_song_txt try_parse song song_dir fs) = Some txt ->
  let sd := fst (from_usdb_song unidecode lower try_parse song song_dir fs) in
  (forall dir fname,
      truthy_opt fname = false -> _file_exists dir fname fs = (false, []))
  /\ local_txt sd = true
  /\ (truthy_opt (mp3 (headers txt)) = false -> local_audio sd = false)
  /\ (truthy_opt (video (headers txt)) = false -> local_video sd = false)
  /\ (truthy_opt (cover (headers txt)) = false -> local_cover sd = false)
  /\ (truthy_opt (background (headers txt)) = false ->
      local_background sd = false).
Proof.
  intros Hparsed sd.
  pose proof (from_usdb_song_fields unidecode lower try_parse fs song song_dir)
    as (Htxt & Haudio & Hvideo & Hcover & Hbackground).
  rewrite Hparsed in Htxt, Haudio, Hvideo, Hcover, Hbackground.
  cbn [header_exists bool_txt] in Htxt, Haudio, Hvideo, Hcover, Hbackground.
  subst sd.
  split; [intros dir fname; apply file_exists_falsy|].
  split; [exact Htxt|].
  repeat split; intros Hfalsy.
  - rewrite Haudio, (file_exists_falsy fs _ _ Hfalsy); reflexivity.
  - rewrite Hvideo, (file_exists_falsy fs _ _ Hfalsy); reflexivity.
  - rewrite Hcover, (file_exists_falsy fs _ _ Hfalsy); reflexivity.
  - rewrite Hbackground, (file_exists_falsy fs _ _ Hfalsy); reflexivity.
Qed.

Lemma from_usdb_song_empty_header_witness :
  truthy_opt (mp3 (headers {| headers := {| mp3 := Some []; video := None;
       cover := Some (py "cover.jpg"); background := None |} |})) = false
  /\ local_audio
       (fst (from_usdb_song unidecode_ascii lower_ascii parse_cover_only
               waterloo (py "songs") synced_fs)) = false.
Proof.
  split; [reflexivity|].
  apply (from_usdb_song_empty_header unidecode_ascii lower_ascii
           parse_cover_only synced_fs waterloo (py "songs")
           (txt := {| headers := {| mp3 := Some []; video := None;
              cover := Some (py "cover.jpg"); background := None |} |})).
  - reflexivity.
  - reflexivity.
Defined.

(** C8: for every column exactly one arm of each [match] is taken and
    [assert_never] is not reached; [decoration_data] returns [None] for every
    text column and [display_data] returns [None] for every status-icon
    column, the text columns and the icon columns being the two parts of the
    column enum. *)
Theorem display_decoration_partition (self : SongData) (col : Column) :
  arms_taken display_arms col = 1
  /\ arms_taken decoration_arms col = 1
  /\ display_data self col <> AssertNever
  /\ decoration_data self col <> AssertNever
  /\ (In col text_columns ->
      decoration_data self col = Returned None
      /\ exists text, display_data self col = Returned (Some text))
  /\ (In col icon_columns -> display_data self col = Returned None)
  /\ (In col text_columns \/ In col icon_columns)
  /\ ~ (In col text_columns /\ In col icon_columns).
Proof.
  assert (Hnot : forall c : Column,
             In c text_columns -> In c icon_columns -> False).
  { intros c Ht Hi; simpl in Ht, Hi.
    repeat (destruct Ht as [<- | Ht]; [intuition discriminate|]).
    exact Ht. }
  destruct col; repeat split;
    try discriminate;
    try (eexists; reflexivity);
    try (simpl; tauto);
    try (intros [Ht Hi]; exact (Hnot _ Ht Hi));
    try reflexivity;
    intros; exfalso;
    match goal with
    | H : In _ _ |- _ => simpl in H; intuition discriminate
    end.
Qed.

Lemma substring_of_some (text : str) (attrs : list str) :
  existsb (fun attr => str_in text attr) attrs = true
  <-> exists attr, In attr attrs /\ Substring text attr.
Proof.
  rewrite existsb_exists; split; intros [attr [Hin H]]; exists attr;
    (split; [exact Hin | apply str_in_Substring, H]).
Qed.

(** C10: [text in f] holds exactly when [text] is a substring of one of the
    five fields of [f], which [__init__] sets to the song id as a decimal
    string and the normalized artist, title, language and edition; the empty
    string is in every [FuzzySearchText]. *)
Theorem FuzzySearchText_contains_iff
    (unidecode lower : str -> str) (self : FuzzySearchText)
    (song : UsdbSong) (text : str) :
  (FuzzySearchText_contains self text = true <->
     Substring text (fuzzy_song_id self)
     \/ Substring text (fuzzy_artist self)
     \/ Substring text (fuzzy_title self)
     \/ Substring text (fuzzy_language self)
     \/ Substring text (fuzzy_edition self))
  /\ (FuzzySearchText_contains (FuzzySearchText_init unidecode lower song) text
        = true <->
      Substring text (str_int (song_id song))
      \/ Substring text (fuzz_text unidecode lower (artist song))
      \/ Substring text (fuzz_text unidecode lower (title song))
      \/ Substring text (fuzz_text unidecode lower (language song))
      \/ Substring text (fuzz_text unidecode lower (edition song)))
  /\ FuzzySearchText_contains self [] = true.
Proof.
  assert (Hany : forall f : FuzzySearchText,
             FuzzySearchText_contains f text = true <->
             Substring text (fuzzy_song_id f)
             \/ Substring text (fuzzy_artist f)
             \/ Substring text (fuzzy_title f)
             \/ Substring text (fuzzy_language f)
             \/ Substring text (fuzzy_edition f)).
  { intros f; unfold FuzzySearchText_contains.
    rewrite substring_of_some; split.
    - intros [attr [Hin H]]; simpl in Hin.
      destruct Hin as [<- | [<- | [<- | [<- | [<- | []]]]]]; tauto.
    - intros H; simpl.
      destruct H as [H | [H | [H | [H | H]]]];
        (eexists; split; [|exact H]); tauto. }
  split; [apply Hany|].
  split; [apply (Hany (FuzzySearchText_init unidecode lower song))|].
  unfold FuzzySearchText_contains; simpl.
  rewrite str_in_empty; reflexivity.
Qed.

Example contains_sample :
  let f := FuzzySearchText_init unidecode_ascii lower_ascii waterloo in
  FuzzySearchText_contains f (py "terl") = true
  /\ FuzzySearchText_contains f (py "42") = true
  /\ FuzzySearchText_contains f (py "Waterloo") = false.
Proof. repeat split. Qed.

(** C5, as the code has it: normalizing again changes nothing when the
    normalized text is left alone by the transliteration and the lowercasing
    and none of the replacement patterns occurs in it. *)
Theorem fuzz_text_idempotent_on_pattern_free
    (unidecode lower : str -> str) (text : str) :
  lower (unidecode (fuzz_text unidecode lower text))
    = fuzz_text unidecode lower text ->
  has_pattern REPLACEMENTS (fuzz_text unidecode lower text) = false ->
  fuzz_text unidecode lower (fuzz_text unidecode lower text)
    = fuzz_text unidecode lower text.
Proof.
  intros Hstable Hfree.
  unfold fuzz_text at 1.
  rewrite Hstable.
  apply replace_each_absent; [apply REPLACEMENTS_nonempty | exact Hfree].
Qed.

Lemma fuzz_text_idempotent_on_pattern_free_witness :
  has_pattern REPLACEMENTS
    (fuzz_text unidecode_ascii lower_ascii (py "Simon & Garfunkel ft. Who?"))
    = false
  /\ fuzz_text unidecode_ascii lower_ascii
       (fuzz_text unidecode_ascii lower_ascii (py "Simon & Garfunkel ft. Who?"))
     = py "simon and garfunkel feat. who".
Proof.
  split; [reflexivity|].
  rewrite (fuzz_text_idempotent_on_pattern_free unidecode_ascii lower_ascii
             (py "Simon & Garfunkel ft. Who?")); reflexivity.
Defined.

(** C5 as stated fails: ["a ft? b"] is normalized to ["a ft b"], in which the
    removal of the question mark has left the pattern [" ft "], and that is
    normalized to ["a feat. b"]. *)
Lemma fuzz_text_not_idempotent :
  fuzz_text unidecode_ascii lower_ascii (py "a ft? b") = py "a ft b"
  /\ fuzz_text unidecode_ascii lower_ascii (py "a ft b") = py "a feat. b"
  /\ fuzz_text unidecode_ascii lower_ascii
       (fuzz_text unidecode_ascii lower_ascii (py "a ft? b"))
     <> fuzz_text unidecode_ascii lower_ascii (py "a ft? b").
Proof. repeat split; discriminate. Qed.

(** *** What the normalized text cannot hold *)

(** The characters [&], [!], [?] and [/], each of which one replacement
    removes. *)
Definition marks : str := py "&!?/".

(** Once the replacements have run, no such character is left: the one that
    removes it leaves none, and none of the later ones brings it back. *)
Lemma replace_each_drops_marks (text : str) (c : char) :
  In c marks -> ~ In c (replace_each REPLACEMENTS text).
Proof.
  unfold replace_each, REPLACEMENTS; cbn [fold_left fst snd].
  intros Hc; simpl in Hc.
  destruct Hc as [<- | [<- | [<- | [<- | []]]]];
    repeat first
      [ apply (replace_char_removes 38%N)
      | apply (replace_char_removes 33%N)
      | apply (replace_char_removes 63%N)
      | apply (replace_char_removes 47%N)
      | apply replace_keeps_out ];
    simpl; intuition discriminate.
Qed.

Section Search.

Variable unidecode : str -> str.
Variable lower : str -> str.

(** Whatever the transliteration and the lowercasing return, the normalized
    text holds none of [&], [!], [?] and [/]. *)
Theorem fuzz_text_drops_marks (text : str) :
  forallb (fun c => negb (existsb (N.eqb c) marks))
    (fuzz_text unidecode lower text) = true.
Proof.
  apply forallb_forall; intros c Hc.
  apply negb_true_iff, not_true_is_false; intros Hmark.
  apply existsb_exists in Hmark as [m [Hm E]].
  apply N.eqb_eq in E; subst m.
  exact (@replace_each_drops_marks _ _ Hm Hc).
Qed.

(** A search text that holds one of [&], [!], [?] and [/] is found in no
    song: the id is a number and the other four fields are normalized. *)
Theorem search_with_mark_finds_nothing
    (song : UsdbSong) (text : str) (c : char) :
  In c marks -> In c text ->
  FuzzySearchText_contains (FuzzySearchText_init unidecode lower song) text
  = false.
Proof.
  intros Hmark Htext.
  apply not_true_is_false; intros Hfound.
  apply substring_of_some in Hfound as [attr [Hattr Hsub]].
  pose proof (@Substring_In _ _ _ Hsub Htext) as Hin.
  simpl in Hattr.
  destruct Hattr as [<- | Hattr].
  - apply str_int_chars in Hin.
    simpl in Hmark.
    destruct Hmark as [<- | [<- | [<- | [<- | []]]]];
      destruct Hin as [H | H]; discriminate.
  - unfold fuzz_text in Hattr.
    destruct Hattr as [<- | [<- | [<- | [<- | []]]]];
      exact (@replace_each_drops_marks _ _ Hmark Hin).
Qed.

(** Search narrows: a text that is found is found again when it is cut down
    to any part of it. *)
Theorem search_narrows (self : FuzzySearchText) (text part : str) :
  Substring part text ->
  FuzzySearchText_contains self text = true ->
  FuzzySearchText_contains self part = true.
Proof.
  intros Hpart Hfound.
  apply substring_of_some in Hfound as [attr [Hattr Hsub]].
  apply substring_of_some; exists attr; split; [exact Hattr|].
  exact (Substring_trans Hpart Hsub).
Qed.

End Search.

Lemma search_with_mark_finds_nothing_witness :
  In 47%N marks /\ In 47%N (py "AC/DC")
  /\ FuzzySearchText_contains
       (FuzzySearchText_init unidecode_ascii lower_ascii
          {| song_id := 7; artist := py "AC/DC"; title := py "T.N.T.";
             language := py "English"; edition := py ""; golden_notes := false;
             rating := 5; views := 10 |})
       (py "AC/DC") = false.
Proof.
  assert (Hmark : In 47%N marks) by (simpl; tauto).
  assert (Htext : In 47%N (py "AC/DC")) by (simpl; tauto).
  split; [exact Hmark|]; split; [exact Htext|].
  exact (search_with_mark_finds_nothing unidecode_ascii lower_ascii _ _ Hmark Htext).
Defined.

Lemma search_narrows_witness :
  Substring (py "terl") (py "waterloo")
  /\ FuzzySearchText_contains
       (FuzzySearchText_init unidecode_ascii lower_ascii waterloo) (py "terl")
     = true.
Proof.
  assert (Hpart : Substring (py "terl") (py "waterloo"))
    by (exists (py "wa"), (py "oo"); reflexivity).
  split; [exact Hpart|].
  exact (search_narrows _ Hpart (eq_refl : FuzzySearchText_contains
           (FuzzySearchText_init unidecode_ascii lower_ascii waterloo)
           (py "waterloo") = true)).
Defined.

(** *** What the presence flags stand for *)

(** The notes file [_get_song_txt] reads. *)
Definition notes_path (song : UsdbSong) (song_dir : str) : str :=
  OsPath.join (_song_folder_path song song_dir) [artist_title song ++ py ".txt"].

Section Flags.

Variable unidecode : str -> str.
Variable lower : str -> str.
Variable try_parse : str -> option SongTxt.
Variable fs : FS.
Variable song : UsdbSong.
Variable song_dir : str.

Let marker : str := marker_path song song_dir.
Let notes : str := notes_path song song_dir.
Let folder : str := _song_folder_path song song_dir.
Let found : option SongTxt * list fs_event :=
  _get_song_txt try_parse song song_dir fs.
Let result : SongData * list fs_event :=
  from_usdb_song unidecode lower try_parse song song_dir fs.

(** The three ways [_get_song_txt] can go, with the requests made. *)
Lemma get_song_txt_cases :
  (fs_exists fs marker = false /\ found = (None, [Exists marker]))
  \/ (fs_exists fs marker = true /\ fs_exists fs notes = false
      /\ found = (None, [Exists marker; Exists notes]))
  \/ (fs_exists fs marker = true /\ fs_exists fs notes = true
      /\ found =
         (match fs_read fs notes with
          | Some contents => if truthy contents then try_parse contents else None
          | None => None
          end,
          [Exists marker; Exists notes; Read notes])).
Proof.
  unfold found, _get_song_txt, bind, os_path_exists, try_read_unknown_encoding.
  change (OsPath.join
            (OsPath.join song_dir [artist_title song; str_int (song_id song)])
            [str_int (song_id song) ++ py ".usdb"]) with marker.
  change (OsPath.join
            (OsPath.join song_dir [artist_title song; str_int (song_id song)])
            [artist_title song ++ py ".txt"]) with notes.
  destruct (fs_exists fs marker); [|left; split; reflexivity].
  right; cbn [negb].
  destruct (fs_exists fs notes); [right | left; repeat split].
  repeat split.
  destruct (fs_read fs notes) as [contents|]; [|reflexivity].
  destruct (truthy contents); reflexivity.
Qed.

(** A header check asks the file system at most once, and only whether a
    file exists. *)
Lemma header_exists_cases (txt : option SongTxt)
    (header : Headers -> option str) :
  header_exists folder txt header fs = (false, [])
  \/ exists t name,
       txt = Some t /\ header (headers t) = Some name /\ truthy name = true
       /\ header_exists folder txt header fs
          = (fs_exists fs (OsPath.join folder [name]),
             [Exists (OsPath.join folder [name])]).
Proof.
  destruct txt as [t|]; [|left; reflexivity]; simpl.
  destruct (header (headers t)) as [name|] eqn:Hname; [|left; reflexivity].
  simpl; destruct (truthy name) eqn:Hname'; [|left; reflexivity].
  right; exists t, name; repeat split; assumption.
Qed.

Lemma header_flag_iff (txt : option SongTxt) (header : Headers -> option str) :
  fst (header_exists folder txt header fs) = true
  <-> exists t name,
        txt = Some t /\ header (headers t) = Some name /\ truthy name = true
        /\ fs_exists fs (OsPath.join folder [name]) = true.
Proof.
  split.
  - destruct (header_exists_cases txt header)
      as [-> | (t & name & Ht & Hh & Hn & ->)]; [discriminate|].
    cbn [fst]; intros He; exists t, name; repeat split; assumption.
  - intros (t & name & -> & Hh & Hn & He); simpl.
    rewrite Hh; simpl; rewrite Hn; exact He.
Qed.

(** A flag of the record is set exactly when the file it stands for was
    there: the notes flag when the marker and a parsable, non-empty notes
    file exist, a media flag when moreover the header names a file that
    exists in the song folder. *)
Theorem presence_flags_sound :
  (local_txt (fst result) = true <->
     fs_exists fs marker = true /\ fs_exists fs notes = true
     /\ exists contents txt,
          fs_read fs notes = Some contents /\ truthy contents = true
          /\ try_parse contents = Some txt)
  /\ (forall (flag : SongData -> bool) (header : Headers -> option str),
        In (flag, header)
          [(local_audio, mp3); (local_video, video); (local_cover, cover);
           (local_background, background)] ->
        (flag (fst result) = true <->
           exists txt name,
             fst found = Some txt /\ header (headers txt) = Some name
             /\ truthy name = true
             /\ fs_exists fs (OsPath.join folder [name]) = true)).
Proof.
  pose proof (from_usdb_song_fields unidecode lower try_parse fs song song_dir)
    as (Htxt & Haudio & Hvideo & Hcover & Hbackground).
  fold result found folder in Htxt, Haudio, Hvideo, Hcover, Hbackground.
  split.
  - rewrite Htxt.
    destruct get_song_txt_cases
      as [[Hm ->] | [(Hm & Hn & ->) | (Hm & Hn & ->)]]; cbn [fst bool_txt].
    + rewrite Hm; split; [discriminate | intros [H _]; discriminate].
    + rewrite Hn; split; [discriminate | intros (_ & H & _); discriminate].
    + destruct (fs_read fs notes) as [contents|].
      * destruct (truthy contents) eqn:Htruthy.
        -- destruct (try_parse contents) as [txt|] eqn:Hparse; cbn [bool_txt].
           ++ split; [intros _ | reflexivity].
              repeat split; try assumption.
              exists contents, txt; repeat split; assumption.
           ++ split; [discriminate|].
              intros (_ & _ & c' & t' & E & _ & Hp).
              injection E as <-; congruence.
        -- split; [discriminate|].
           intros (_ & _ & c' & t' & E & Ht & _).
           injection E as <-; congruence.
      * split; [discriminate|].
        intros (_ & _ & c' & t' & E & _); discriminate.
  - intros flag header Hin; simpl in Hin.
    destruct Hin as [E | [E | [E | [E | []]]]]; injection E as <- <-.
    + rewrite Haudio; apply header_flag_iff.
    + rewrite Hvideo; apply header_flag_iff.
    + rewrite Hcover; apply header_flag_iff.
    + rewrite Hbackground; apply header_flag_iff.
Qed.

(** No media flag is set without the notes flag. *)
Theorem media_flag_needs_notes :
  local_audio (fst result) || local_video (fst result)
  || local_cover (fst result) || local_background (fst result) = true ->
  local_txt (fst result) = true.
Proof.
  pose proof (from_usdb_song_fields unidecode lower try_parse fs song song_dir)
    as (Htxt & Haudio & Hvideo & Hcover & Hbackground).
  fold result found folder in Htxt, Haudio, Hvideo, Hcover, Hbackground.
  rewrite Htxt, Haudio, Hvideo, Hcover, Hbackground.
  destruct (fst found) as [txt|]; [reflexivity | discriminate].
Qed.

(** The file system is asked at most seven times; the first request is the
    check for the marker; the only file read is the notes file, at most once,
    and only after the marker and the notes file were found to exist. *)
Theorem from_usdb_song_requests :
  hd_error (snd result) = Some (Exists marker)
  /\ List.length (snd result) <= 7
  /\ List.length (filter is_read (snd result)) <= 1
  /\ (forall path, In (Read path) (snd result) ->
        path = notes /\ fs_exists fs marker = true
        /\ fs_exists fs notes = true).
Proof.
  pose proof (from_usdb_song_trace unidecode lower try_parse fs song song_dir)
    as Htrace.
  fold result found folder in Htrace.
  assert (Hheader : forall header,
            snd (header_exists folder (fst found) header fs) = []
            \/ exists p, snd (header_exists folder (fst found) header fs)
                         = [Exists p]).
  { intros header.
    destruct (header_exists_cases (fst found) header)
      as [-> | (t & name & _ & _ & _ & ->)]; [left | right; eexists];
      reflexivity. }
  rewrite Htrace.
  destruct (Hheader mp3) as [-> | [p1 ->]],
           (Hheader video) as [-> | [p2 ->]],
           (Hheader cover) as [-> | [p3 ->]],
           (Hheader background) as [-> | [p4 ->]];
    destruct get_song_txt_cases
      as [[Hm ->] | [(Hm & Hn & ->) | (Hm & Hn & ->)]];
    cbn [snd app hd_error List.length filter is_read];
    (split; [reflexivity|]); (split; [lia|]); (split; [lia|]);
    intros path Hin; simpl in Hin;
    repeat (destruct Hin as [Hin | Hin]; [try discriminate|]);
    try contradiction;
    injection Hin as <-; repeat split; assumption.
Qed.

End Flags.

Lemma media_flag_needs_notes_witness :
  local_cover
    (fst (from_usdb_song unidecode_ascii lower_ascii parse_cover_only
            waterloo (py "songs") synced_fs)) = true
  /\ local_txt
       (fst (from_usdb_song unidecode_ascii lower_ascii parse_cover_only
               waterloo (py "songs") synced_fs)) = true.
Proof.
  split; [reflexivity|].
  apply (media_flag_needs_notes unidecode_ascii lower_ascii parse_cover_only
           synced_fs waterloo (py "songs")).
  reflexivity.
Defined.

(** *** The song folder *)

Lemma str_int_not_absolute (n : Z) : startswith (str_int n) OsPath.sep = false.
Proof.
  pose proof (@str_int_chars n) as Hchars.
  destruct (str_int n) as [|c s]; [reflexivity|].
  destruct (Hchars c (or_introl eq_refl)) as [Hdigit | ->]; [|reflexivity].
  unfold OsPath.sep; change (py "/") with [47%N].
  cbn [startswith]; rewrite andb_true_r.
  destruct (N.eqb_spec 47 c) as [<- | _]; [discriminate | reflexivity].
Qed.

Lemma artist_title_end (song : UsdbSong) :
  endswith (title song) OsPath.sep = false ->
  endswith (artist_title song) OsPath.sep = false.
Proof.
  intros Htitle; unfold artist_title, OsPath.sep.
  change (py "/") with [47%N].
  rewrite endswith_app_char by (simpl; discriminate).
  destruct (title song) as [|c t] eqn:E; [reflexivity|].
  rewrite endswith_app_char by discriminate.
  exact Htitle.
Qed.

(** When the artist does not start with a slash, the root directory is
    non-empty and does not end with one, and the title does not end with
    one, the song folder is [<root>/<artist> - <title>/<id>]. *)
Theorem song_folder_path_relative (song : UsdbSong) (song_dir : str) :
  startswith (artist song) OsPath.sep = false ->
  truthy song_dir = true ->
  endswith song_dir OsPath.sep = false ->
  endswith (title song) OsPath.sep = false ->
  _song_folder_path song song_dir
  = song_dir ++ py "/" ++ artist song ++ py " - " ++ title song
    ++ py "/" ++ str_int (song_id song).
Proof.
  intros Hartist Hdir Hdir_end Htitle.
  assert (Hat : startswith (artist_title song) OsPath.sep = false).
  { unfold artist_title, OsPath.sep in *; change (py "/") with [47%N] in *.
    destruct (artist song) as [|c a]; [reflexivity|].
    rewrite startswith_app_char by discriminate; exact Hartist. }
  assert (Hat_end := @artist_title_end song Htitle).
  unfold _song_folder_path, OsPath.join; cbn [fold_left].
  rewrite (@OsPath.join_step_relative _ _ Hat Hdir Hdir_end).
  rewrite OsPath.join_step_relative.
  - unfold artist_title, OsPath.sep; rewrite <- !app_assoc; reflexivity.
  - apply str_int_not_absolute.
  - destruct song_dir; [discriminate | reflexivity].
  - unfold OsPath.sep in *; change (py "/") with [47%N] in *.
    rewrite endswith_app_char by discriminate.
    rewrite endswith_app_char; [exact Hat_end|].
    unfold artist_title; destruct (artist song); discriminate.
Qed.

(** An artist that starts with a slash takes the song folder out of the
    root directory: the folder is then the same for every root, and
    absolute. *)
Theorem song_folder_path_absolute_artist (song : UsdbSong) (song_dir : str) :
  startswith (artist song) OsPath.sep = true ->
  _song_folder_path song song_dir
  = OsPath.join (artist_title song) [str_int (song_id song)]
  /\ startswith (_song_folder_path song song_dir) OsPath.sep = true.
Proof.
  intros Hartist.
  assert (Hat : startswith (artist_title song) OsPath.sep = true).
  { unfold artist_title, OsPath.sep in *; change (py "/") with [47%N] in *.
    destruct (artist song) as [|c a]; [discriminate|].
    rewrite startswith_app_char by discriminate; exact Hartist. }
  assert (Hfolder : _song_folder_path song song_dir
                    = OsPath.join (artist_title song) [str_int (song_id song)]).
  { unfold _song_folder_path, OsPath.join; cbn [fold_left].
    rewrite (@OsPath.join_step_absolute _ _ Hat); reflexivity. }
  split; [exact Hfolder|].
  rewrite Hfolder; unfold OsPath.join; cbn [fold_left].
  unfold OsPath.join_step; rewrite str_int_not_absolute.
  unfold OsPath.sep in *; change (py "/") with [47%N] in *.
  destruct (artist_title song) as [|c a] eqn:E; [discriminate|].
  destruct (negb (truthy (c :: a)) || endswith (c :: a) [47%N]);
    rewrite startswith_app_char by discriminate; exact Hat.
Qed.

Lemma song_folder_path_relative_witness :
  startswith (artist waterloo) OsPath.sep = false
  /\ _song_folder_path waterloo (py "songs") = py "songs/Abba - Waterloo/42".
Proof.
  split; [reflexivity|].
  rewrite (@song_folder_path_relative waterloo (py "songs"));
    reflexivity.
Defined.

Lemma song_folder_path_absolute_artist_witness :
  startswith (py "/etc") OsPath.sep = true
  /\ _song_folder_path
       {| song_id := 42; artist := py "/etc"; title := py "Waterloo";
          language := py ""; edition := py ""; golden_notes := false;
          rating := 0; views := 0 |} (py "songs")
     = py "/etc - Waterloo/42".
Proof.
  split; [reflexivity|].
  rewrite (proj1 (@song_folder_path_absolute_artist
                    {| song_id := 42; artist := py "/etc"; title := py "Waterloo";
                       language := py ""; edition := py ""; golden_notes := false;
                       rating := 0; views := 0 |} (py "songs") eq_refl)).
  reflexivity.
Defined.

End SongData.

(** ** [usdb_syncer/resource_dl.py] *)

Module ResourceDl.
Import Py.

(** *** Exceptions, the log and the outside world *)

(** The exceptions the libraries raise.  [Timeout] and [ConnectionError] are
    subclasses of [requests.RequestException]. *)
Inductive exn : Type :=
| Timeout
| ConnectionError
| YoutubeDLError
| OtherError.

Definition is_RequestException (e : exn) : bool :=
  match e with
  | Timeout | ConnectionError => true
  | YoutubeDLError | OtherError => false
  end.

Definition is_YoutubeDLError (e : exn) : bool :=
  match e with
  | YoutubeDLError => true
  | Timeout | ConnectionError | OtherError => false
  end.

Inductive Result (A : Type) : Type :=
| Ok (a : A)
| Raised (e : exn).
Arguments Raised {A}.

Inductive level : Type := DEBUG | WARNING | ERROR.

Record log_entry : Type := { lvl : level; msg : str }.

(** A computation that may raise and that writes to the logger. *)
Definition M (A : Type) : Type := Result A * list log_entry.

Definition ret (A : Type) (a : A) : M A := (Ok a, []).

Definition bind (A B : Type) (m : M A) (k : A -> M B) : M B :=
  match m with
  | (Ok a, l1) => let (r, l2) := k a in (r, l1 ++ l2)
  | (Raised e, l1) => (Raised e, l1)
  end.

Notation "x <- m ;; k" := (bind m (fun x => k))
  (at level 61, m at next level, right associativity).

Definition log (l : level) (text : str) : M unit :=
  (Ok tt, [{| lvl := l; msg := text |}]).

(** A library call: it returns or raises, and logs nothing. *)
Definition call (A : Type) (r : Result A) : M A := (r, []).

(** [try: body  except <caught>: handler]. *)
Definition try_except (A : Type) (body : M A) (caught : exn -> bool)
    (handler : M A) : M A :=
  match body with
  | (Ok a, l) => (Ok a, l)
  | (Raised e, l) =>
      if caught e then let (r, l') := handler in (r, l ++ l')
      else (Raised e, l)
  end.

Record Request : Type := {
  req_url : str;
  req_headers : list (str * str);
  req_timeout : Z
}.

Record Reply : Type := {
  reply_url : str;
  status_code : Z;
  content : list N
}.

Record Postprocessor : Type := {
  key : str;
  preferredquality : str;
  preferredcodec : str
}.

(** The options dictionary handed to [yt_dlp.YoutubeDL]. *)
Record YdlOpts : Type := {
  format : str;
  outtmpl : str;
  keepvideo : bool;
  verbose : bool;
  cookiesfrombrowser : option str;
  postprocessors : list Postprocessor
}.

(** The libraries the module calls: [urlparse(url).netloc],
    [requests.get], and [ydl.prepare_filename(ydl.extract_info(url))]. *)
Record World : Type := {
  urlparse_netloc : str -> str;
  requests_get : Request -> Result Reply;
  ydl_download : YdlOpts -> str -> Result str
}.

(** Modelled from the spec: the download options of [download_options],
    which is not among the sources; the code reads [ytdl_format()] and, of
    audio options, [format.value]. *)
Inductive Options : Type :=
| AudioOptions (ytdl_format : str) (format_value : str)
| VideoOptions (ytdl_format : str).

Definition ytdl_format (options : Options) : str :=
  match options with
  | AudioOptions f _ => f
  | VideoOptions f => f
  end.

(** [settings.Browser]: its [value], empty for no browser. *)
Record Browser : Type := { value : str }.

Definition IMAGE_DOWNLOAD_HEADERS : list (str * str) :=
  [ (py "User-Agent",
     py "Mozilla/5.0 (Windows NT 10.0; Win64; x64) AppleWebKit/537.36 "
     ++ py "(KHTML, like Gecko) Chrome/42.0.2311.135 Safari/537.36 Edge/12.246") ].

(** [x in range(a, b)] for an [int]. *)
Definition in_range (a b x : Z) : bool := ((a <=? x) && (x <? b))%Z.

(** An optional string inside an f-string. *)
Definition fmt_opt (s : option str) : str :=
  match s with
  | Some text => text
  | None => py "None"
  end.

(** *** The functions *)

Definition url_from_video_resouce (resource : str) : str :=
  if str_in (py "://") resource then resource
  else if str_in (py "/") resource then py "https://" ++ resource
  else py "https://www.youtube.com/watch?v=" ++ resource.

Definition domain_white_list : list str :=
  flat_map
    (fun sub =>
       List.map (fun domain => sub ++ domain)
         [ py "youtube.com"; py "youtu.be"; py "vimeo.com";
           py "dailymotion.com"; py "universal-music.de";
           py "images.fanart.tv"; py "fanart.tv" ])
    [ py ""; py "www." ].

Definition is_domain_allowed (test_domain : str) : bool :=
  existsb (str_eqb test_domain) domain_white_list.

(** The request [check_url] sends: [requests.get(url, timeout=1)]. *)
Definition probe (url : str) : Request :=
  {| req_url := url; req_headers := []; req_timeout := 1 |}.

(** The request [download_image] sends. *)
Definition fetch (url : str) : Request :=
  {| req_url := url; req_headers := IMAGE_DOWNLOAD_HEADERS; req_timeout := 60 |}.

Section WithWorld.

Variable w : World.

Definition check_url (url : str) : M (bool * option str) :=
  let domain := urlparse_netloc w url in
  if negb (is_domain_allowed domain) then ret (false, Some domain)
  else
    reply <- call (requests_get w (probe url)) ;;
    let final_redirect_domain := urlparse_netloc w (reply_url reply) in
    if negb (str_eqb final_redirect_domain domain) then
      _ <- log DEBUG
             (domain ++ py " finally redirects to " ++ final_redirect_domain) ;;
      if negb (is_domain_allowed final_redirect_domain)
      then ret (false, Some final_redirect_domain)
      else ret (true, None)
    else ret (true, None).

Definition download_video (resource : str) (options : Options)
    (browser : Browser) (path_stem : str) : M (option str) :=
  let url := url_from_video_resouce resource in
  checked <- check_url url ;;
  let (url_allowed, forbidden_domain) := checked in
  if negb url_allowed then
    _ <- log ERROR
           (py "Failed to download video (download from ressource domain '"
            ++ fmt_opt forbidden_domain ++ py "' is restricted)") ;;
    ret None
  else
    let ext :=
      match options with
      | AudioOptions _ format_value => Some format_value
      | VideoOptions _ => None
      end in
    let ydl_opts :=
      {| format := ytdl_format options;
         outtmpl := path_stem ++ py ".%(ext)s";
         keepvideo := false;
         verbose := false;
         cookiesfrombrowser :=
           if truthy (value browser) then Some (value browser) else None;
         postprocessors :=
           match options with
           | AudioOptions _ format_value =>
               [ {| key := py "FFmpegExtractAudio";
                    preferredquality := py "320";
                    preferredcodec := format_value |} ]
           | VideoOptions _ => []
           end |} in
    downloaded <-
      try_except
        (filename <- call (ydl_download w ydl_opts url) ;; ret (Some filename))
        is_YoutubeDLError
        (_ <- log DEBUG (py "error downloading video url: " ++ url) ;; ret None) ;;
    match downloaded with
    | None => ret None
    | Some filename =>
        if truthy_opt ext then ret ext
        else ret (Some (tl (snd (OsPath.splitext filename))))
    end.

Definition download_image (url : str) : M (option (list N)) :=
  checked <- check_url url ;;
  let (url_allowed, forbidden_domain) := checked in
  if negb url_allowed then
    _ <- log ERROR
           (py "Failed to download image (download from ressource domain '"
            ++ fmt_opt forbidden_domain ++ py "' is restricted)") ;;
    ret None
  else
    fetched <-
      try_except
        (reply <- call (requests_get w (fetch url)) ;; ret (Some reply))
        is_RequestException
        (_ <- log ERROR
                (py "Failed to retrieve " ++ url
                 ++ py ". The server may be down or your internet "
                 ++ py "connection is currently unavailable.") ;;
         ret None) ;;
    match fetched with
    | None => ret None
    | Some reply =>
        if in_range 100 399 (status_code reply) then ret (Some (content reply))
        else if in_range 400 499 (status_code reply) then
          _ <- log ERROR
                 (py "Client error " ++ str_int (status_code reply)
                  ++ py ". Failed to download " ++ reply_url reply) ;;
          ret None
        else if in_range 500 599 (status_code reply) then
          _ <- log ERROR
                 (py "Server error " ++ str_int (status_code reply)
                  ++ py ". Failed to download " ++ reply_url reply) ;;
          ret None
        else ret None
    end.

End WithWorld.

(** *** Sample worlds for the examples *)

Definition is_alpha (c : N) : bool :=
  ((65 <=? c) && (c <=? 90) || (97 <=? c) && (c <=? 122))%N.

Definition is_scheme_char (c : N) : bool :=
  (is_alpha c || (48 <=? c) && (c <=? 57)
   || (c =? 43) || (c =? 45) || (c =? 46))%N.

(** [s.partition(":")], when there is a colon. *)
Fixpoint split_colon (s : str) : option (str * str) :=
  match s with
  | [] => None
  | c :: s' =>
      if (c =? 58)%N then Some ([], s')
      else
        match split_colon s' with
        | Some (before, after) => Some (c :: before, after)
        | None => None
        end
  end.

(** The text up to the first of [/], [?] and [#]. *)
Fixpoint until_delim (s : str) : str :=
  match s with
  | [] => []
  | c :: s' =>
      if ((c =? 47) || (c =? 63) || (c =? 35))%N then []
      else c :: until_delim s'
  end.

(** The network location as [urllib.parse.urlsplit] finds it in a URL
    without brackets or control characters: a scheme is split off at the
    first colon, and the location follows [//]. *)
Definition netloc_of (url : str) : str :=
  let rest :=
    match split_colon url with
    | Some (c :: scheme, after) =>
        if is_alpha c && forallb is_scheme_char scheme then after else url
    | _ => url
    end in
  if startswith rest (py "//") then until_delim (skipn 2 rest) else [].

(** No connection: every request times out. *)
Definition offline : World :=
  {| urlparse_netloc := netloc_of;
     requests_get := fun _ => Raised Timeout;
     ydl_download := fun _ _ => Raised YoutubeDLError |}.

(** A host that answers the redirect probe with 200 and the download with
    [status] and [body], without redirecting. *)
Definition answering (status : Z) (body : list N) : World :=
  {| urlparse_netloc := netloc_of;
     requests_get := fun req =>
       Ok {| reply_url := req_url req;
             status_code := if (req_timeout req =? 1)%Z then 200%Z else status;
             content := body |};
     ydl_download := fun opts url => Ok (py "out/clip.webm") |}.

(** A host that redirects every request to [target]. *)
Definition redirecting (target : str) : World :=
  {| urlparse_netloc := netloc_of;
     requests_get := fun req =>
       Ok {| reply_url := target; status_code := 200; content := [] |};
     ydl_download := fun opts url => Ok (py "out/clip.webm") |}.

(** A host that answers the probe and then drops the connection. *)
Definition dropping : World :=
  {| urlparse_netloc := netloc_of;
     requests_get := fun req =>
       if (req_timeout req =? 1)%Z
       then Ok {| reply_url := req_url req; status_code := 200; content := [] |}
       else Raised ConnectionError;
     ydl_download := fun opts url => Raised YoutubeDLError |}.

Definition cover_url : str := py "https://images.fanart.tv/fanart/cover.jpg".

Definition jpeg : list N := [255; 216; 255]%N.

(** *** Properties *)

Example netloc_samples :
  netloc_of cover_url = py "images.fanart.tv"
  /\ netloc_of (py "https://www.youtube.com/watch?v=abc123") = py "www.youtube.com"
  /\ netloc_of (py "vimeo.com/55") = py "".
Proof. repeat split. Qed.

Example is_domain_allowed_samples :
  is_domain_allowed (py "youtube.com") = true
  /\ is_domain_allowed (py "www.youtube.com") = true
  /\ is_domain_allowed (py "evil.com") = false.
Proof. repeat split. Qed.

Example check_url_samples :
  check_url (answering 200 []) cover_url = (Ok (true, None), [])
  /\ fst (check_url (redirecting (py "https://www.youtube.com/x")) cover_url)
     = Ok (true, None)
  /\ fst (check_url (redirecting (py "https://evil.com/x")) cover_url)
     = Ok (false, Some (py "evil.com"))
  /\ check_url (answering 200 []) (py "https://evil.com/x")
     = (Ok (false, Some (py "evil.com")), []).
Proof. repeat split. Qed.

Example download_image_250 :
  download_image (answering 250 jpeg) cover_url = (Ok (Some jpeg), []).
Proof. reflexivity. Qed.

Example download_image_404 :
  download_image (answering 404 jpeg) cover_url
  = (Ok None,
     [ {| lvl := ERROR;
          msg := py "Client error 404. Failed to download "
                 ++ cover_url |} ]).
Proof. reflexivity. Qed.

Example download_image_503 :
  download_image (answering 503 jpeg) cover_url
  = (Ok None,
     [ {| lvl := ERROR;
          msg := py "Server error 503. Failed to download "
                 ++ cover_url |} ]).
Proof. reflexivity. Qed.

(** A failure of the download request itself is caught. *)
Example download_image_dropped :
  fst (download_image dropping cover_url) = Ok None
  /\ List.map lvl (snd (download_image dropping cover_url)) = [ERROR].
Proof. split; reflexivity. Qed.

Example download_video_samples :
  download_video (answering 200 []) (py "abc123") (VideoOptions (py "best"))
    {| value := py "" |} (py "out/clip")
  = (Ok (Some (py "webm")), [])
  /\ download_video (answering 200 []) (py "abc123")
       (AudioOptions (py "bestaudio") (py "mp3")) {| value := py "" |}
       (py "out/clip")
     = (Ok (Some (py "mp3")), [])
  /\ fst (download_video dropping (py "abc123") (VideoOptions (py "best"))
            {| value := py "" |} (py "out/clip"))
     = Ok None.
Proof. repeat split. Qed.

(** C6: [url_from_video_resouce] has exactly three cases: a resource that
    contains ["://"] is returned unchanged; otherwise one that contains ["/"]
    gets ["https://"] in front; otherwise it is taken for a YouTube id and
    put into the watch URL. *)
Theorem url_from_video_resouce_cases (resource : str) :
  (Substring (py "://") resource -> url_from_video_resouce resource = resource)
  /\ (~ Substring (py "://") resource -> Substring (py "/") resource ->
      url_from_video_resouce resource = py "https://" ++ resource)
  /\ (~ Substring (py "://") resource -> ~ Substring (py "/") resource ->
      url_from_video_resouce resource
      = py "https://www.youtube.com/watch?v=" ++ resource)
  /\ url_from_video_resouce (py "https://x.com/y") = py "https://x.com/y"
  /\ url_from_video_resouce (py "vimeo.com/55") = py "https://vimeo.com/55"
  /\ url_from_video_resouce (py "abc123")
     = py "https://www.youtube.com/watch?v=abc123".
Proof.
  unfold url_from_video_resouce.
  split; [|split; [|split]].
  - intros Hscheme; apply str_in_Substring in Hscheme.
    rewrite Hscheme; reflexivity.
  - intros Hscheme Hslash.
    apply str_in_false in Hscheme; apply str_in_Substring in Hslash.
    rewrite Hscheme, Hslash; reflexivity.
  - intros Hscheme Hslash.
    apply str_in_false in Hscheme; apply str_in_false in Hslash.
    rewrite Hscheme, Hslash; reflexivity.
  - repeat split.
Qed.

Lemma str_eqb_allowed (a b : str) :
  str_eqb a b = true -> is_domain_allowed a = is_domain_allowed b.
Proof. intros H; apply str_eqb_eq in H; subst; reflexivity. Qed.

(** C4: [check_url] rejects a URL whose own domain is not on the list,
    naming that domain, whatever the network does; when the domain is allowed and
    the request returns, it rejects the URL exactly when the domain of the
    final redirect target is not on the list, naming that one, and accepts it
    with [(True, None)] otherwise. *)
Theorem check_url_validates (w : World) (url : str) :
  let domain := urlparse_netloc w url in
  (is_domain_allowed domain = false ->
   check_url w url = (Ok (false, Some domain), []))
  /\ (forall reply : Reply,
        is_domain_allowed domain = true ->
        requests_get w (probe url) = Ok reply ->
        let final := urlparse_netloc w (reply_url reply) in
        fst (check_url w url)
        = Ok (if is_domain_allowed final then (true, None)
              else (false, Some final))).
Proof.
  cbv zeta; split.
  - intros Hdomain; unfold check_url; rewrite Hdomain; reflexivity.
  - intros reply Hdomain Hreply.
    unfold check_url.
    rewrite Hdomain, Hreply; cbn [negb call bind].
    set (domain := urlparse_netloc w url) in *.
    set (final := urlparse_netloc w (reply_url reply)).
    destruct (str_eqb final domain) eqn:Hsame; cbn [negb].
    + rewrite (str_eqb_allowed _ _ Hsame), Hdomain; reflexivity.
    + destruct (is_domain_allowed final); reflexivity.
Qed.

Section Download.

Variable w : World.
Variable url : str.
Variable reply : Reply.
Variable checks : list log_entry.

Hypothesis url_checked : check_url w url = (Ok (true, None), checks).
Hypothesis fetched : requests_get w (fetch url) = Ok reply.

(** What [download_image] makes of the status code: the three ranges are
    [range(100, 399)], [range(400, 499)] and [range(500, 599)], so they end
    at 398, 498 and 598. *)
Lemma download_image_by_status :
  let status := status_code reply in
  download_image w url =
    if ((100 <=? status) && (status <=? 398))%Z then
      (Ok (Some (content reply)), checks)
    else if ((400 <=? status) && (status <=? 498))%Z then
      (Ok None,
       checks ++
       [ {| lvl := ERROR;
            msg := py "Client error " ++ str_int status
                   ++ py ". Failed to download " ++ reply_url reply |} ])
    else if ((500 <=? status) && (status <=? 598))%Z then
      (Ok None,
       checks ++
       [ {| lvl := ERROR;
            msg := py "Server error " ++ str_int status
                   ++ py ". Failed to download " ++ reply_url reply |} ])
    else (Ok None, checks).
Proof.
  intros status; unfold download_image.
  rewrite url_checked, fetched; cbn [bind call try_except ret negb app].
  fold status; unfold in_range.
  replace (status <? 399)%Z with (status <=? 398)%Z
    by (destruct (Z.leb_spec status 398), (Z.ltb_spec status 399); lia).
  replace (status <? 499)%Z with (status <=? 498)%Z
    by (destruct (Z.leb_spec status 498), (Z.ltb_spec status 499); lia).
  replace (status <? 599)%Z with (status <=? 598)%Z
    by (destruct (Z.leb_spec status 598), (Z.ltb_spec status 599); lia).
  destruct ((100 <=? status) && (status <=? 398))%Z;
    [cbn [ret]; rewrite app_nil_r; reflexivity|].
  destruct ((400 <=? status) && (status <=? 498))%Z;
    [cbn [log bind ret app]; reflexivity|].
  destruct ((500 <=? status) && (status <=? 598))%Z;
    [cbn [log bind ret app]; reflexivity|].
  cbn [ret]; rewrite app_nil_r; reflexivity.
Qed.

End Download.

Lemma download_image_by_status_witness :
  check_url (answering 250 jpeg) cover_url = (Ok (true, None), [])
  /\ download_image (answering 250 jpeg) cover_url = (Ok (Some jpeg), []).
Proof.
  split; [reflexivity|].
  rewrite (@download_image_by_status (answering 250 jpeg) cover_url
             {| reply_url := cover_url; status_code := 250; content := jpeg |}
             [] eq_refl eq_refl).
  reflexivity.
Defined.

(** C2, where the code departs from it: a reply with status 399 is inside
    the redirect range the comment names, yet [range(100, 399)] leaves it
    out, so nothing is returned; 499 and 599 fall outside [range(400, 499)]
    and [range(500, 599)] likewise, so [None] is returned and nothing is
    logged. *)
Theorem download_image_range_ends :
  download_image (answering 399 jpeg) cover_url = (Ok None, [])
  /\ download_image (answering 499 jpeg) cover_url = (Ok None, [])
  /\ download_image (answering 599 jpeg) cover_url = (Ok None, [])
  /\ download_image (answering 398 jpeg) cover_url = (Ok (Some jpeg), []).
Proof. repeat split. Qed.

(** C3, where the code departs from it: the request [check_url] sends is
    not inside a [try], so whatever it raises leaves [check_url], and with
    it [download_image] and [download_video], as an exception. *)
Theorem probe_exception_escapes
    (w : World) (resource : str) (options : Options) (browser : Browser)
    (path_stem : str) (e : exn) :
  let url := url_from_video_resouce resource in
  is_domain_allowed (urlparse_netloc w url) = true ->
  requests_get w (probe url) = Raised e ->
  check_url w url = (Raised e, [])
  /\ download_image w url = (Raised e, [])
  /\ download_video w resource options browser path_stem = (Raised e, []).
Proof.
  intros url Hallowed Hraised.
  assert (Hcheck : check_url w url = (Raised e, [])).
  { unfold check_url; rewrite Hallowed, Hraised; reflexivity. }
  split; [exact Hcheck|].
  split.
  - unfold download_image; rewrite Hcheck; reflexivity.
  - unfold download_video; fold url; rewrite Hcheck; reflexivity.
Qed.

Lemma probe_exception_escapes_witness :
  is_domain_allowed (urlparse_netloc offline cover_url) = true
  /\ download_image offline cover_url = (Raised Timeout, [])
  /\ download_video offline cover_url (VideoOptions (py "best"))
       {| value := py "" |} (py "out/clip")
     = (Raised Timeout, []).
Proof.
  split; [reflexivity|].
  apply (probe_exception_escapes offline cover_url (VideoOptions (py "best"))
           {| value := py "" |} (py "out/clip") (e := Timeout));
    reflexivity.
Defined.

(** *** The allow-list *)

(** A domain is allowed exactly when it is one of the seven hosts or one of
    them after [www.]; so the comparison is exact (no other subdomain, no
    port, no user name, case as written) and the empty domain is refused. *)
Theorem is_domain_allowed_iff (test_domain : str) :
  (is_domain_allowed test_domain = true <->
     exists host,
       In host [ py "youtube.com"; py "youtu.be"; py "vimeo.com";
                 py "dailymotion.com"; py "universal-music.de";
                 py "images.fanart.tv"; py "fanart.tv" ]
       /\ (test_domain = host \/ test_domain = py "www." ++ host))
  /\ (is_domain_allowed test_domain = true ->
      test_domain <> []
      /\ forallb (fun c => is_alpha c && (97 <=? c)%N
                           || (c =? 45)%N || (c =? 46)%N) test_domain = true).
Proof.
  assert (Hlist : is_domain_allowed test_domain = true ->
                  In test_domain domain_white_list).
  { unfold is_domain_allowed; rewrite existsb_exists.
    intros [d [Hin E]]; apply str_eqb_eq in E; subst; exact Hin. }
  split; [split|].
  - intros H; apply Hlist in H; simpl in H.
    repeat (destruct H as [<- | H];
            [solve [ eexists; split; [|left; reflexivity]; simpl; tauto
                   | eexists; split; [|right; reflexivity]; simpl; tauto ]|]).
    contradiction.
  - intros [host [Hin Hd]]; simpl in Hin.
    repeat (destruct Hin as [<- | Hin];
            [destruct Hd as [-> | ->]; reflexivity|]).
    contradiction.
  - intros H; apply Hlist in H; simpl in H.
    repeat (destruct H as [<- | H]; [split; [discriminate | reflexivity]|]).
    contradiction.
Qed.

(** *** What [check_url] can return *)

Section Checked.

Variable w : World.
Variable url : str.

Let domain : str := urlparse_netloc w url.

Definition redirect_note (final : str) : log_entry :=
  {| lvl := DEBUG; msg := domain ++ py " finally redirects to " ++ final |}.

(** The five ways [check_url] can go. *)
Lemma check_url_cases :
  (is_domain_allowed domain = false
   /\ check_url w url = (Ok (false, Some domain), []))
  \/ (is_domain_allowed domain = true
      /\ exists e, requests_get w (probe url) = Raised e
                   /\ check_url w url = (Raised e, []))
  \/ (is_domain_allowed domain = true
      /\ exists reply,
           requests_get w (probe url) = Ok reply
           /\ let final := urlparse_netloc w (reply_url reply) in
              (final = domain /\ check_url w url = (Ok (true, None), []))
              \/ (final <> domain /\ is_domain_allowed final = true
                  /\ check_url w url = (Ok (true, None), [redirect_note final]))
              \/ (final <> domain /\ is_domain_allowed final = false
                  /\ check_url w url
                     = (Ok (false, Some final), [redirect_note final]))).
Proof.
  unfold check_url, redirect_note; fold domain.
  destruct (is_domain_allowed domain) eqn:Hdomain;
    [right | left; split; reflexivity].
  cbn [negb].
  destruct (requests_get w (probe url)) as [reply | e] eqn:Hprobe.
  - right; split; [reflexivity|]; exists reply; split; [reflexivity|].
    cbv zeta; cbn [call bind].
    destruct (str_eqb (urlparse_netloc w (reply_url reply)) domain) eqn:Hsame.
    + left; apply str_eqb_eq in Hsame; split; [exact Hsame | reflexivity].
    + assert (Hdiff : urlparse_netloc w (reply_url reply) <> domain).
      { intros E; rewrite E, str_eqb_refl in Hsame; discriminate. }
      right; cbn [negb log bind].
      destruct (is_domain_allowed (urlparse_netloc w (reply_url reply)));
        [left | right]; repeat split; assumption.
  - left; split; [reflexivity|]; exists e; split; reflexivity.
Qed.

(** An accepted URL has its own domain and the domain of the final
    redirect target on the list; a rejected one comes with a domain, the
    URL's own or the final one, that is not on it. *)
Theorem check_url_sound (accepted : bool) (reason : option str) :
  fst (check_url w url) = Ok (accepted, reason) ->
  if accepted then
    reason = None /\ is_domain_allowed domain = true
    /\ exists reply,
         requests_get w (probe url) = Ok reply
         /\ is_domain_allowed (urlparse_netloc w (reply_url reply)) = true
  else
    exists d,
      reason = Some d /\ is_domain_allowed d = false
      /\ (d = domain
          \/ exists reply, requests_get w (probe url) = Ok reply
                           /\ d = urlparse_netloc w (reply_url reply)).
Proof.
  destruct check_url_cases
    as [[Hd ->] | [[Hd [e [He ->]]] | [Hd [reply [Hr Hcases]]]]];
    cbn [fst]; intros E.
  - injection E as <- <-; exists domain; repeat split; auto.
  - discriminate.
  - cbv zeta in Hcases.
    destruct Hcases as [[Hf Hc] | [(Hf & Ha & Hc) | (Hf & Ha & Hc)]];
      rewrite Hc in E; cbn [fst] in E; injection E as <- <-.
    + repeat split; [exact Hd|]; exists reply; split; [exact Hr|].
      rewrite Hf; exact Hd.
    + repeat split; [exact Hd|]; exists reply; split; assumption.
    + eexists; repeat split; [exact Ha|].
      right; exists reply; split; [exact Hr | reflexivity].
Qed.

(** [check_url] logs at most one entry, a debug note. *)
Lemma check_url_log :
  snd (check_url w url) = []
  \/ exists final, snd (check_url w url) = [redirect_note final].
Proof.
  destruct check_url_cases
    as [[Hd ->] | [[Hd [e [He ->]]] | [Hd [reply [Hr Hcases]]]]];
    try (left; reflexivity).
  cbv zeta in Hcases.
  destruct Hcases as [[Hf ->] | [(Hf & Ha & ->) | (Hf & Ha & ->)]];
    [left | right; eexists | right; eexists]; reflexivity.
Qed.

End Checked.

Lemma check_url_sound_witness :
  fst (check_url (redirecting (py "https://evil.com/x")) cover_url)
    = Ok (false, Some (py "evil.com"))
  /\ exists d,
       Some (py "evil.com") = Some d /\ is_domain_allowed d = false
       /\ (d = urlparse_netloc (redirecting (py "https://evil.com/x")) cover_url
           \/ exists reply,
                requests_get (redirecting (py "https://evil.com/x"))
                  (probe cover_url) = Ok reply
                /\ d = urlparse_netloc (redirecting (py "https://evil.com/x"))
                         (reply_url reply)).
Proof.
  split; [reflexivity|].
  exact (@check_url_sound (redirecting (py "https://evil.com/x")) cover_url
           false (Some (py "evil.com")) eq_refl).
Defined.

(** *** What [download_image] can return *)

Definition restricted_entry (what : str) (reason : option str) : log_entry :=
  {| lvl := ERROR;
     msg := py "Failed to download " ++ what
            ++ py " (download from ressource domain '"
            ++ fmt_opt reason ++ py "' is restricted)" |}.

Definition unavailable_entry (url : str) : log_entry :=
  {| lvl := ERROR;
     msg := py "Failed to retrieve " ++ url
            ++ py ". The server may be down or your internet "
            ++ py "connection is currently unavailable." |}.

Definition status_entry (kind : str) (reply : Reply) : log_entry :=
  {| lvl := ERROR;
     msg := kind ++ py " error " ++ str_int (status_code reply)
            ++ py ". Failed to download " ++ reply_url reply |}.

Section Image.

Variable w : World.
Variable url : str.

(** [download_image] with the monad unfolded: the result and the log for
    each way the check and the request can go. *)
Lemma download_image_unfold :
  download_image w url =
    match check_url w url with
    | (Raised e, l) => (Raised e, l)
    | (Ok (false, reason), l) =>
        (Ok None, l ++ [restricted_entry (py "image") reason])
    | (Ok (true, _), l) =>
        match requests_get w (fetch url) with
        | Raised e =>
            if is_RequestException e
            then (Ok None, l ++ [unavailable_entry url])
            else (Raised e, l)
        | Ok reply =>
            if in_range 100 399 (status_code reply)
            then (Ok (Some (content reply)), l)
            else if in_range 400 499 (status_code reply)
            then (Ok None, l ++ [status_entry (py "Client") reply])
            else if in_range 500 599 (status_code reply)
            then (Ok None, l ++ [status_entry (py "Server") reply])
            else (Ok None, l)
        end
    end.
Proof.
  unfold download_image.
  destruct (check_url w url) as [[[[|] reason] | e] l]; cbn [bind negb];
    [| reflexivity | reflexivity].
  destruct (requests_get w (fetch url)) as [reply | e];
    cbn [call bind try_except ret app].
  - destruct (in_range 100 399 (status_code reply));
      [cbn [ret]; rewrite app_nil_r; reflexivity|].
    destruct (in_range 400 499 (status_code reply));
      [cbn [log bind ret app]; reflexivity|].
    destruct (in_range 500 599 (status_code reply));
      [cbn [log bind ret app]; reflexivity|].
    cbn [ret]; rewrite app_nil_r; reflexivity.
  - destruct (is_RequestException e); cbn [log bind ret app];
      [|rewrite app_nil_r]; reflexivity.
Qed.

Lemma check_url_accepted (reason : option str) (l : list log_entry) :
  check_url w url = (Ok (true, reason), l) ->
  is_domain_allowed (urlparse_netloc w url) = true
  /\ (exists reply,
        requests_get w (probe url) = Ok reply
        /\ is_domain_allowed (urlparse_netloc w (reply_url reply)) = true)
  /\ Forall (fun entry => lvl entry = DEBUG) l.
Proof.
  destruct (check_url_cases w url)
    as [[Hd ->] | [[Hd [e [He ->]]] | [Hd [reply [Hr Hcases]]]]];
    try discriminate.
  cbv zeta in Hcases.
  destruct Hcases as [[Hf ->] | [(Hf & Ha & ->) | (Hf & Ha & ->)]];
    intros E; try discriminate; injection E as <- <-;
    (split; [exact Hd|]); (split; [exists reply; split; [exact Hr|]|]);
    try (repeat constructor); try assumption.
  rewrite Hf; exact Hd.
Qed.


(** Content is returned only for a URL whose own domain and whose final
    redirect domain are on the list, and it is the body of a reply with a
    status from 100 to 398; no error is logged then. *)
Theorem download_image_content_sound (bytes : list N) :
  fst (download_image w url) = Ok (Some bytes) ->
  is_domain_allowed (urlparse_netloc w url) = true
  /\ (exists reply,
        requests_get w (probe url) = Ok reply
        /\ is_domain_allowed (urlparse_netloc w (reply_url reply)) = true)
  /\ (exists reply,
        requests_get w (fetch url) = Ok reply
        /\ (100 <= status_code reply <= 398)%Z
        /\ bytes = content reply)
  /\ Forall (fun entry => lvl entry = DEBUG) (snd (download_image w url)).
Proof.
  rewrite download_image_unfold.
  destruct (check_url w url) as [[[[|] reason] | e] l] eqn:Hcheck;
    cbn [fst]; try discriminate.
  destruct (check_url_accepted Hcheck) as (Hdomain & Hfinal & Hlog).
  destruct (requests_get w (fetch url)) as [reply | e] eqn:Hfetch.
  - destruct (in_range 100 399 (status_code reply)) eqn:Hstatus.
    + cbn [fst snd]; intros E; injection E as <-.
      repeat split; try assumption.
      exists reply; repeat split;
        unfold in_range in Hstatus; lia.
    + destruct (in_range 400 499 (status_code reply)); [discriminate|].
      destruct (in_range 500 599 (status_code reply)); discriminate.
  - destruct (is_RequestException e); discriminate.
Qed.

(** When nothing is returned, an error has been logged, unless the reply
    had a status below 100, 399, 499, or 599 and above: those are dropped
    without a word. *)
Theorem download_image_silent_none :
  fst (download_image w url) = Ok None ->
  (exists entry, In entry (snd (download_image w url)) /\ lvl entry = ERROR)
  \/ (exists reply,
        requests_get w (fetch url) = Ok reply
        /\ (status_code reply < 100 \/ status_code reply = 399
            \/ status_code reply = 499 \/ 599 <= status_code reply)%Z
        /\ Forall (fun entry => lvl entry = DEBUG)
             (snd (download_image w url))).
Proof.
  rewrite download_image_unfold.
  destruct (check_url w url) as [[[[|] reason] | e] l] eqn:Hcheck;
    cbn [fst]; try discriminate.
  - destruct (check_url_accepted Hcheck) as (_ & _ & Hlog).
    destruct (requests_get w (fetch url)) as [reply | e] eqn:Hfetch.
    + destruct (in_range 100 399 (status_code reply)) eqn:H1;
        [discriminate|].
      destruct (in_range 400 499 (status_code reply)) eqn:H4.
      { intros _; left; eexists; split;
          [apply in_or_app; right; left; reflexivity | reflexivity]. }
      destruct (in_range 500 599 (status_code reply)) eqn:H5.
      { intros _; left; eexists; split;
          [apply in_or_app; right; left; reflexivity | reflexivity]. }
      intros _; right; exists reply; split; [reflexivity|].
      split; [unfold in_range in *; lia | exact Hlog].
    + destruct (is_RequestException e); [|discriminate].
      intros _; left; eexists; split;
        [apply in_or_app; right; left; reflexivity | reflexivity].
  - intros _; left; eexists; split;
      [apply in_or_app; right; left; reflexivity | reflexivity].
Qed.


End Image.


Lemma download_image_content_sound_witness :
  fst (download_image (answering 250 jpeg) cover_url) = Ok (Some jpeg)
  /\ is_domain_allowed (urlparse_netloc (answering 250 jpeg) cover_url) = true.
Proof.
  split; [reflexivity|].
  exact (proj1 (@download_image_content_sound (answering 250 jpeg) cover_url
                  jpeg eq_refl)).
Defined.

Lemma download_image_silent_none_witness :
  fst (download_image (answering 399 jpeg) cover_url) = Ok None
  /\ ((exists entry,
         In entry (snd (download_image (answering 399 jpeg) cover_url))
         /\ lvl entry = ERROR)
      \/ (exists reply,
            requests_get (answering 399 jpeg) (fetch cover_url) = Ok reply
            /\ (status_code reply < 100 \/ status_code reply = 399
                \/ status_code reply = 499 \/ 599 <= status_code reply)%Z
            /\ Forall (fun entry => lvl entry = DEBUG)
                 (snd (download_image (answering 399 jpeg) cover_url)))).
Proof.
  split; [reflexivity|].
  exact (@download_image_silent_none (answering 399 jpeg) cover_url eq_refl).
Defined.


(** *** What [download_video] can return *)

(** The options [download_video] hands to [yt_dlp]. *)
Definition ydl_opts_for (options : Options) (browser : Browser)
    (path_stem : str) : YdlOpts :=
  {| format := ytdl_format options;
     outtmpl := path_stem ++ py ".%(ext)s";
     keepvideo := false;
     verbose := false;
     cookiesfrombrowser :=
       if truthy (value browser) then Some (value browser) else None;
     postprocessors :=
       match options with
       | AudioOptions _ format_value =>
           [ {| key := py "FFmpegExtractAudio";
                preferredquality := py "320";
                preferredcodec := format_value |} ]
       | VideoOptions _ => []
       end |}.

(** The extension [download_video] returns for a downloaded file. *)
Definition extension_for (options : Options) (filename : str) : str :=
  match options with
  | AudioOptions _ format_value =>
      if truthy format_value then format_value
      else tl (snd (OsPath.splitext filename))
  | VideoOptions _ => tl (snd (OsPath.splitext filename))
  end.

Definition video_error_entry (url : str) : log_entry :=
  {| lvl := DEBUG; msg := py "error downloading video url: " ++ url |}.

Section Video.

Variable w : World.
Variable resource : str.
Variable options : Options.
Variable browser : Browser.
Variable path_stem : str.

Let url : str := url_from_video_resouce resource.
Let opts : YdlOpts := ydl_opts_for options browser path_stem.
Let result : M (option str) :=
  download_video w resource options browser path_stem.

(** [download_video] with the monad unfolded. *)
Lemma download_video_unfold :
  result =
    match check_url w url with
    | (Raised e, l) => (Raised e, l)
    | (Ok (false, reason), l) =>
        (Ok None, l ++ [restricted_entry (py "video") reason])
    | (Ok (true, _), l) =>
        match ydl_download w opts url with
        | Raised e =>
            if is_YoutubeDLError e
            then (Ok None, l ++ [video_error_entry url])
            else (Raised e, l)
        | Ok filename => (Ok (Some (extension_for options filename)), l)
        end
    end.
Proof.
  unfold result, download_video; fold url.
  destruct (check_url w url) as [[[[|] reason] | e] l]; cbn [bind negb];
    [| reflexivity | reflexivity].
  change {| format := ytdl_format options;
            outtmpl := path_stem ++ py ".%(ext)s";
            keepvideo := false;
            verbose := false;
            cookiesfrombrowser :=
              if truthy (value browser) then Some (value browser) else None;
            postprocessors :=
              match options with
              | AudioOptions _ format_value =>
                  [ {| key := py "FFmpegExtractAudio";
                       preferredquality := py "320";
                       preferredcodec := format_value |} ]
              | VideoOptions _ => []
              end |} with opts.
  destruct (ydl_download w opts url) as [filename | e];
    cbn [call bind try_except ret app].
  - unfold extension_for.
    destruct options as [f format_value | f]; cbn [truthy_opt].
    + destruct (truthy format_value); cbn [ret]; rewrite app_nil_r;
        reflexivity.
    + cbn [ret]; rewrite app_nil_r; reflexivity.
  - destruct (is_YoutubeDLError e); cbn [log bind ret app];
      [|rewrite app_nil_r]; reflexivity.
Qed.

(** An extension is returned only after the URL was accepted and [yt_dlp]
    returned a file name.  For audio it is the requested format whatever
    the file is called, unless that format is empty; otherwise it is the
    file's extension without the dot. *)
Theorem download_video_extension (ext : str) :
  fst result = Ok (Some ext) ->
  is_domain_allowed (urlparse_netloc w url) = true
  /\ exists filename,
       ydl_download w opts url = Ok filename
       /\ ext = extension_for options filename
       /\ (forall f format_value,
             options = AudioOptions f format_value -> format_value <> [] ->
             ext = format_value)
       /\ (forall f, options = VideoOptions f ->
             ext = tl (snd (OsPath.splitext filename))).
Proof.
  rewrite download_video_unfold.
  destruct (check_url w url) as [[[[|] reason] | e] l] eqn:Hcheck;
    cbn [fst]; try discriminate.
  destruct (check_url_accepted _ _ Hcheck) as (Hdomain & _ & _).
  destruct (ydl_download w opts url) as [filename | e] eqn:Hydl.
  - cbn [fst]; intros E; injection E as <-.
    split; [exact Hdomain|]; exists filename.
    split; [reflexivity|]; split; [reflexivity|]; split.
    + intros f format_value -> Hne; simpl.
      destruct format_value; [congruence | reflexivity].
    + intros f ->; reflexivity.
  - destruct (is_YoutubeDLError e); discriminate.
Qed.

(** When nothing is returned, the last log entry says why: the domain was
    restricted (an error), or [yt_dlp] failed (a debug note only). *)
Theorem download_video_none :
  fst result = Ok None ->
  (exists reason l,
      snd result = l ++ [restricted_entry (py "video") reason]
      /\ exists d, reason = Some d /\ is_domain_allowed d = false)
  \/ (exists l,
        snd result = l ++ [video_error_entry url]
        /\ ydl_download w opts url = Raised YoutubeDLError).
Proof.
  rewrite download_video_unfold.
  destruct (check_url_cases w url)
    as [[Hd ->] | [[Hd [e [He ->]]] | [Hd [reply [Hr Hcases]]]]];
    cbn [fst snd]; try discriminate.
  - intros _; left; exists (Some (urlparse_netloc w url)), [].
    split; [reflexivity|]; eexists; split; [reflexivity | exact Hd].
  - cbv zeta in Hcases.
    destruct Hcases as [[Hf ->] | [(Hf & Ha & ->) | (Hf & Ha & ->)]].
    + destruct (ydl_download w opts url) as [filename | []]; cbn [fst snd];
        try discriminate.
      intros _; right; exists []; split; reflexivity.
    + destruct (ydl_download w opts url) as [filename | []]; cbn [fst snd];
        try discriminate.
      intros _; right; eexists; split; reflexivity.
    + intros _; left; do 2 eexists; split; [reflexivity|].
      eexists; split; [reflexivity | exact Ha].
Qed.


(** A downloaded video whose file name has no dot gives the empty string,
    not [None]. *)
Theorem download_video_no_extension (f filename : str) :
  options = VideoOptions f ->
  fst (check_url w url) = Ok (true, None) ->
  ydl_download w opts url = Ok filename ->
  ~ In 46%N filename ->
  fst result = Ok (Some []).
Proof.
  intros Hoptions Hcheck Hydl Hdot.
  rewrite download_video_unfold.
  destruct (check_url w url) as [[[accepted reason] | e] l];
    cbn [fst] in Hcheck; [|discriminate].
  injection Hcheck as -> ->; rewrite Hydl; cbn [fst].
  unfold extension_for; rewrite Hoptions.
  rewrite (OsPath.splitext_no_dot _ Hdot); reflexivity.
Qed.

End Video.

(** A world in which [yt_dlp] writes a file without an extension. *)
Definition extensionless : World :=
  {| urlparse_netloc := netloc_of;
     requests_get := fun req =>
       Ok {| reply_url := req_url req; status_code := 200; content := [] |};
     ydl_download := fun opts url => Ok (py "out/clip") |}.

Definition no_browser : Browser := {| value := py "" |}.

Lemma download_video_extension_witness :
  fst (download_video (answering 200 []) (py "abc123")
         (AudioOptions (py "bestaudio") (py "mp3")) no_browser (py "out/clip"))
    = Ok (Some (py "mp3"))
  /\ is_domain_allowed
       (urlparse_netloc (answering 200 [])
          (url_from_video_resouce (py "abc123"))) = true.
Proof.
  split; [reflexivity|].
  exact (proj1 (@download_video_extension (answering 200 []) (py "abc123")
                  (AudioOptions (py "bestaudio") (py "mp3")) no_browser
                  (py "out/clip") (py "mp3") eq_refl)).
Defined.

Lemma download_video_none_witness :
  fst (download_video dropping (py "abc123") (VideoOptions (py "best"))
         no_browser (py "out/clip")) = Ok None
  /\ ((exists reason l,
         snd (download_video dropping (py "abc123") (VideoOptions (py "best"))
                no_browser (py "out/clip"))
         = l ++ [restricted_entry (py "video") reason]
         /\ exists d, reason = Some d /\ is_domain_allowed d = false)
      \/ (exists l,
            snd (download_video dropping (py "abc123")
                   (VideoOptions (py "best")) no_browser (py "out/clip"))
            = l ++ [video_error_entry (url_from_video_resouce (py "abc123"))]
            /\ ydl_download dropping
                 (ydl_opts_for (VideoOptions (py "best")) no_browser
                    (py "out/clip"))
                 (url_from_video_resouce (py "abc123"))
               = Raised YoutubeDLError)).
Proof.
  split; [reflexivity|].
  exact (@download_video_none dropping (py "abc123")
           (VideoOptions (py "best")) no_browser (py "out/clip") eq_refl).
Defined.


Lemma download_video_no_extension_witness :
  ~ In 46%N (py "out/clip")
  /\ fst (download_video extensionless (py "abc123") (VideoOptions (py "best"))
            no_browser (py "out/clip")) = Ok (Some []).
Proof.
  assert (Hdot : ~ In 46%N (py "out/clip")) by (simpl; intuition discriminate).
  split; [exact Hdot|].
  exact (@download_video_no_extension extensionless (py "abc123")
           (VideoOptions (py "best")) no_browser (py "out/clip")
           (py "best") (py "out/clip") eq_refl eq_refl eq_refl Hdot).
Defined.

(** *** Normalizing a resource twice *)

(** The result of [url_from_video_resouce] always holds ["://"], so it is
    returned unchanged when it is normalized again. *)
Theorem url_from_video_resouce_idempotent (resource : str) :
  Substring (py "://") (url_from_video_resouce resource)
  /\ url_from_video_resouce (url_from_video_resouce resource)
     = url_from_video_resouce resource.
Proof.
  assert (Hscheme : str_in (py "://") (url_from_video_resouce resource) = true).
  { unfold url_from_video_resouce.
    destruct (str_in (py "://") resource) eqn:Hin; [exact Hin|].
    destruct (str_in (py "/") resource); apply str_in_Substring.
    - exists (py "https"), resource; reflexivity.
    - exists (py "https"), (py "www.youtube.com/watch?v=" ++ resource).
      reflexivity. }
  split; [apply str_in_Substring, Hscheme|].
  unfold url_from_video_resouce at 1; rewrite Hscheme; reflexivity.
Qed.

(** *** Images: where they come from and where they go *)

Inductive ImageKind : Type := COVER | BACKGROUND.

(** [kind.value]. *)
Definition ImageKind_value (kind : ImageKind) : str :=
  match kind with
  | COVER => py "CO"
  | BACKGROUND => py "BG"
  end.

(** [ImageKind.__str__]. *)
Definition ImageKind_str (kind : ImageKind) : str :=
  match kind with
  | COVER => py "cover"
  | BACKGROUND => py "background"
  end.

(** [str.upper] on ASCII text. *)
Definition upper_ascii (text : str) : str :=
  List.map (fun c => if ((97 <=? c) && (c <=? 122))%N then (c - 32)%N else c)
    text.

(** The image tags of [meta_tags.deserializer], which is not among the
    sources: of them [_get_image_url] reads [source_url()]. *)
Record ImageMetaTags : Type := { source_url : str }.

(** [usdb_scraper.SongDetails], of which the code reads the id and the
    cover URL. *)
Record SongDetails : Type := {
  details_song_id : Z;
  details_cover_url : option str
}.

Definition _get_image_url (meta_tags : option ImageMetaTags)
    (details : SongDetails) (kind : ImageKind) : M (option str) :=
  match meta_tags with
  | Some tags =>
      let url := source_url tags in
      _ <- log DEBUG
             (py "downloading " ++ ImageKind_str kind
              ++ py " from #VIDEO params: " ++ url) ;;
      ret (Some url)
  | None =>
      match kind with
      | COVER =>
          if truthy_opt (details_cover_url details) then
            _ <- log WARNING
                   (py "no cover resource in #VIDEO tag, "
                    ++ py "so fallback to small usdb cover!") ;;
            ret (details_cover_url details)
          else
            _ <- log WARNING
                   (py "no " ++ ImageKind_str kind ++ py " resource found") ;;
            ret None
      | BACKGROUND =>
          _ <- log WARNING
                 (py "no " ++ ImageKind_str kind ++ py " resource found") ;;
          ret None
      end
  end.

(** What is done to the disk, beside what is logged.  [_process_image]
    works on the written file through the image library and is not modelled:
    its call is recorded with its arguments. *)
Inductive effect : Type :=
| Logged (entry : log_entry)
| Wrote (path : str) (bytes : list N)
| Processed (meta_tags : option ImageMetaTags) (max_width : option Z)
    (path : str).

(** Writing a file and processing an image, each of which returns or
    raises. *)
Record Disk : Type := {
  write_file : str -> list N -> Result unit;
  process_image : option ImageMetaTags -> option Z -> str -> Result unit
}.

Definition E (A : Type) : Type := (Result A * list effect)%type.

Definition ret_e (A : Type) (a : A) : E A := (Ok a, []).

Definition bind_e (A B : Type) (m : E A) (k : A -> E B) : E B :=
  match m with
  | (Ok a, l1) => let (r, l2) := k a in (r, l1 ++ l2)
  | (Raised e, l1) => (Raised e, l1)
  end.

(** A computation that only logs, among those that also use the disk. *)
Definition logging (A : Type) (m : M A) : E A :=
  (fst m, List.map Logged (snd m)).

(** An effect happens when its call returns. *)
Definition doing (r : Result unit) (what : effect) : E unit :=
  match r with
  | Ok tt => (Ok tt, [what])
  | Raised e => (Raised e, [])
  end.

Definition image_file_name (filename_stem : str) (kind : ImageKind) : str :=
  filename_stem ++ py " [" ++ ImageKind_value kind ++ py "].jpg".

Definition missing_image_entry (kind : ImageKind) (url : str) : log_entry :=
  {| lvl := ERROR;
     msg := py "#" ++ upper_ascii (ImageKind_str kind)
            ++ py ": file does not exist at or cannot be loaded from url: "
            ++ url |}.

Definition download_and_process_image (d : Disk) (w : World)
    (filename_stem : str) (meta_tags : option ImageMetaTags)
    (details : SongDetails) (pathname : str) (kind : ImageKind)
    (max_width : option Z) : E (option str) :=
  bind_e (logging (_get_image_url meta_tags details kind)) (fun found =>
  match found with
  | None => ret_e None
  | Some url =>
      if negb (truthy url) then ret_e None
      else
        bind_e (logging (download_image w url)) (fun img =>
        match img with
        | Some ((_ :: _) as img_bytes) =>
            let fname := image_file_name filename_stem kind in
            let path := OsPath.join pathname [fname] in
            bind_e (doing (write_file d path img_bytes) (Wrote path img_bytes))
              (fun _ =>
            bind_e (doing (process_image d meta_tags max_width path)
                      (Processed meta_tags max_width path)) (fun _ =>
            ret_e (Some fname)))
        | _ =>
            bind_e (logging (log ERROR (msg (missing_image_entry kind url))))
              (fun _ => ret_e None)
        end)
  end).

Definition is_disk_effect (e : effect) : bool :=
  match e with
  | Logged _ => false
  | Wrote _ _ | Processed _ _ _ => true
  end.

(** A disk on which everything works. *)
Definition working_disk : Disk :=
  {| write_file := fun _ _ => Ok tt; process_image := fun _ _ _ => Ok tt |}.

Definition fanart_tags : ImageMetaTags := {| source_url := cover_url |}.

Definition no_details : SongDetails :=
  {| details_song_id := 42; details_cover_url := None |}.

Example download_and_process_image_sample :
  download_and_process_image working_disk (answering 200 jpeg)
    (py "Abba - Waterloo") (Some fanart_tags) no_details (py "songs/42")
    COVER None
  = (Ok (Some (py "Abba - Waterloo [CO].jpg")),
     [ Logged {| lvl := DEBUG;
                 msg := py "downloading cover from #VIDEO params: "
                        ++ cover_url |};
       Wrote (py "songs/42/Abba - Waterloo [CO].jpg") jpeg;
       Processed (Some fanart_tags) None
         (py "songs/42/Abba - Waterloo [CO].jpg") ]).
Proof. reflexivity. Qed.

Example download_and_process_image_empty_body :
  download_and_process_image working_disk (answering 200 [])
    (py "Abba - Waterloo") (Some fanart_tags) no_details (py "songs/42")
    BACKGROUND None
  = (Ok None,
     [ Logged {| lvl := DEBUG;
                 msg := py "downloading background from #VIDEO params: "
                        ++ cover_url |};
       Logged (missing_image_entry BACKGROUND cover_url) ]).
Proof. reflexivity. Qed.

(** [_get_image_url] never raises and logs exactly one entry.  A URL it
    returns is the one of the image tags or, for a cover without tags, the
    non-empty cover URL of the song details; the cover of the details is
    never taken for a background. *)
Theorem get_image_url_sources (meta_tags : option ImageMetaTags)
    (details : SongDetails) (kind : ImageKind) :
  let found := _get_image_url meta_tags details kind in
  (exists entry, snd found = [entry])
  /\ (exists result, fst found = Ok result)
  /\ (forall url, fst found = Ok (Some url) ->
        (exists tags, meta_tags = Some tags /\ url = source_url tags)
        \/ (meta_tags = None /\ kind = COVER
            /\ details_cover_url details = Some url /\ url <> []))
  /\ (fst found = Ok None ->
        meta_tags = None
        /\ (kind = BACKGROUND \/ truthy_opt (details_cover_url details) = false)
        /\ snd found
           = [ {| lvl := WARNING;
                  msg := py "no " ++ ImageKind_str kind
                         ++ py " resource found" |} ]).
Proof.
  cbv zeta; unfold _get_image_url.
  destruct meta_tags as [tags|].
  - cbn [log bind ret fst snd app].
    split; [eexists; reflexivity|]; split; [eexists; reflexivity|].
    split; [|discriminate].
    intros url E; injection E as <-; left; exists tags; split; reflexivity.
  - destruct kind.
    + destruct (details_cover_url details) as [[|c cover]|] eqn:Hcover;
        cbn [truthy_opt truthy log bind ret fst snd app];
        (split; [eexists; reflexivity|]); (split; [eexists; reflexivity|]).
      * split; [discriminate|].
        intros _; repeat split; right; reflexivity.
      * split; [|discriminate].
        intros url E; injection E as <-; right.
        repeat split; discriminate.
      * split; [discriminate|].
        intros _; repeat split; right; reflexivity.
    + cbn [log bind ret fst snd app].
      split; [eexists; reflexivity|]; split; [eexists; reflexivity|].
      split; [discriminate|].
      intros _; repeat split; left; reflexivity.
Qed.

Section ImageFile.

Variable d : Disk.
Variable w : World.
Variable filename_stem : str.
Variable meta_tags : option ImageMetaTags.
Variable details : SongDetails.
Variable pathname : str.
Variable kind : ImageKind.
Variable max_width : option Z.

Let fname : str := image_file_name filename_stem kind.
Let path : str := OsPath.join pathname [fname].
Let result : E (option str) :=
  download_and_process_image d w filename_stem meta_tags details pathname
    kind max_width.

Lemma filter_logged (l : list log_entry) :
  filter is_disk_effect (List.map Logged l) = [].
Proof. induction l as [|entry l IH]; [reflexivity | exact IH]. Qed.

Lemma in_logged (l : list log_entry) (p : str) (bytes : list N) :
  ~ In (Wrote p bytes) (List.map Logged l).
Proof.
  rewrite in_map_iff; intros [entry [E _]]; discriminate.
Qed.

(** The ways [download_and_process_image] can go: what is returned and
    what is done to the disk, in order. *)
Lemma download_and_process_image_cases :
  (filter is_disk_effect (snd result) = []
   /\ forall name, fst result <> Ok (Some name))
  \/ exists url bytes,
       fst (_get_image_url meta_tags details kind) = Ok (Some url)
       /\ fst (download_image w url) = Ok (Some bytes)
       /\ bytes <> []
       /\ ((filter is_disk_effect (snd result) = []
            /\ exists e, fst result = Raised e
                         /\ write_file d path bytes = Raised e)
           \/ (filter is_disk_effect (snd result) = [Wrote path bytes]
               /\ exists e,
                    fst result = Raised e
                    /\ process_image d meta_tags max_width path = Raised e)
           \/ (filter is_disk_effect (snd result)
               = [Wrote path bytes; Processed meta_tags max_width path]
               /\ fst result = Ok (Some fname))).
Proof.
  unfold result, download_and_process_image, bind_e, logging.
  destruct (_get_image_url meta_tags details kind) as [[[url|] | e] l0];
    cbn [fst snd ret_e];
    try (left; rewrite ?app_nil_r, filter_logged; split;
         [reflexivity | discriminate]).
  destruct url as [|c url]; cbn [truthy negb ret_e fst snd];
    try (left; rewrite ?app_nil_r, filter_logged; split;
         [reflexivity | discriminate]).
  destruct (download_image w (c :: url)) as [[[[|b bytes]|] | e] l1] eqn:Hdl;
    cbn [fst snd log ret_e List.map app];
    try (left; rewrite ?filter_app, ?filter_logged; split;
         [reflexivity | discriminate]).
  right; exists (c :: url), (b :: bytes).
  split; [reflexivity|]; split; [rewrite Hdl; reflexivity|].
  split; [discriminate|].
  fold fname path.
  destruct (write_file d path (b :: bytes)) as [[] | e] eqn:Hwrite;
    cbn [doing].
  - destruct (process_image d meta_tags max_width path) as [[] | e]
      eqn:Hprocess; cbn [doing app fst snd];
      rewrite !filter_app, !filter_logged; cbn [filter is_disk_effect app].
    + right; right; split; reflexivity.
    + right; left; split; [reflexivity|].
      exists e; split; reflexivity.
  - left; cbn [fst snd]; rewrite !filter_app, !filter_logged.
    split; [reflexivity|]; exists e; split; reflexivity.
Qed.

(** A file name is returned only after the file was written and then
    processed, and it is [<stem> [CO].jpg] or [<stem> [BG].jpg]; when [None]
    is returned the disk was not touched. *)
Theorem download_and_process_image_result :
  (forall name, fst result = Ok (Some name) ->
     name = fname
     /\ exists bytes,
          bytes <> []
          /\ filter is_disk_effect (snd result)
             = [Wrote path bytes; Processed meta_tags max_width path])
  /\ (fst result = Ok None -> filter is_disk_effect (snd result) = []).
Proof.
  destruct download_and_process_image_cases
    as [[Hdisk Hname]
       | (url & bytes & _ & _ & Hbytes
          & [[Hdisk [e [He _]]] | [[Hdisk [e [He _]]] | [Hdisk Hr]]])];
    split; try (intros name E; rewrite ?He, ?Hr in E);
    try (intros E; rewrite ?He, ?Hr in E);
    try discriminate; try exact Hdisk;
    try (exfalso; exact (Hname _ E)).
  injection E as <-; split; [reflexivity|].
  exists bytes; split; assumption.
Qed.

(** Whatever is written is the non-empty body that [download_image]
    returned for the URL that [_get_image_url] found, and it goes to the one
    path [<pathname>/<stem> [<kind>].jpg]; so nothing is written for a
    restricted domain, a failed request or an empty body. *)
Theorem download_and_process_image_writes (p : str) (bytes : list N) :
  In (Wrote p bytes) (snd result) ->
  p = path /\ bytes <> []
  /\ exists url,
       fst (_get_image_url meta_tags details kind) = Ok (Some url)
       /\ fst (download_image w url) = Ok (Some bytes).
Proof.
  intros Hin.
  assert (Hdisk : In (Wrote p bytes) (filter is_disk_effect (snd result)))
    by (apply filter_In; split; [exact Hin | reflexivity]).
  destruct download_and_process_image_cases
    as [[Hnone _]
       | (url & bytes' & Hurl & Hdl & Hbytes
          & [[Hnone _] | [[Hone _] | [Htwo _]]])];
    try (rewrite Hnone in Hdisk; contradiction).
  - rewrite Hone in Hdisk; destruct Hdisk as [E | []].
    injection E as <- <-; repeat split; [exact Hbytes|].
    exists url; split; assumption.
  - rewrite Htwo in Hdisk; destruct Hdisk as [E | [E | []]];
      [|discriminate].
    injection E as <- <-; repeat split; [exact Hbytes|].
    exists url; split; assumption.
Qed.

End ImageFile.

Lemma download_and_process_image_writes_witness :
  In (Wrote (py "songs/42/Abba - Waterloo [CO].jpg") jpeg)
    (snd (download_and_process_image working_disk (answering 200 jpeg)
            (py "Abba - Waterloo") (Some fanart_tags) no_details
            (py "songs/42") COVER None))
  /\ jpeg <> [].
Proof.
  assert (Hin : In (Wrote (py "songs/42/Abba - Waterloo [CO].jpg") jpeg)
                  (snd (download_and_process_image working_disk
                          (answering 200 jpeg) (py "Abba - Waterloo")
                          (Some fanart_tags) no_details (py "songs/42")
                          COVER None))).
  { right; left; reflexivity. }
  split; [exact Hin|].
  exact (proj1 (proj2 (@download_and_process_image_writes working_disk
                         (answering 200 jpeg) (py "Abba - Waterloo")
                         (Some fanart_tags) no_details (py "songs/42") COVER
                         None _ _ Hin))).
Defined.

End ResourceDl.

(** ** [usdb_syncer/gui/search_tree/tree.py] *)

Module Tree.

(** A variant item is known by the row of its category under the root and
    its own row under the category; this is also its model index. *)
Definition item : Type := (nat * nat)%type.

Inductive role : Type := CheckStateRole.

(** [dataChanged.emit(top_left, bottom_right, roles)]. *)
Inductive signal : Type :=
| dataChanged (top_left bottom_right : item) (roles : list role).

(** The checked state of the variants of one category, by row, and of the
    whole tree, by category. *)
Definition category : Type := list bool.
Definition tree : Type := list category.

(** [l[i] = x], where [i] is a row of [l]. *)
Fixpoint update (A : Type) (i : nat) (x : A) (l : list A) {struct l}
    : list A :=
  match l, i with
  | [], _ => []
  | _ :: rest, O => x :: rest
  | y :: rest, S i' => y :: update i' x rest
  end.

Definition checked_at (t : tree) (i : item) : option bool :=
  match nth_error t (fst i) with
  | Some children => nth_error children (snd i)
  | None => None
  end.

(** The rows, counted from [j], of the checked variants other than [row]. *)
Fixpoint checked_siblings (row j : nat) (children : category) : list nat :=
  match children with
  | [] => []
  | b :: rest =>
      if b && negb (Nat.eqb j row)
      then j :: checked_siblings row (S j) rest
      else checked_siblings row (S j) rest
  end.

(** Every variant other than [row] unchecked. *)
Fixpoint uncheck_siblings (row j : nat) (children : category) : category :=
  match children with
  | [] => []
  | b :: rest =>
      (if Nat.eqb j row then b else false) :: uncheck_siblings row (S j) rest
  end.

(** Modelled from the spec: [VariantItem.toggle_checked] of
    [search_tree/item.py], which is not among the sources.  The clicked
    variant is toggled; unless siblings are kept, the checked siblings in its
    category are unchecked; the items whose state changed are returned, the
    clicked one first. *)
Definition toggle_checked (keep_siblings : bool) (row : nat)
    (children : category) : category * list nat :=
  match nth_error children row with
  | None => (children, [])
  | Some b =>
      let toggled := update row (negb b) children in
      if keep_siblings then (toggled, [row])
      else (uncheck_siblings row 0 toggled,
            row :: checked_siblings row 0 toggled)
  end.

(** [FilterTree._on_click] for the index of a variant, with [ctrl] the state
    of the modifier key: one [dataChanged] signal for each item that
    [toggle_checked] returns. *)
Definition _on_click (ctrl : bool) (index : item) (t : tree)
    : tree * list signal :=
  match nth_error t (fst index) with
  | None => (t, [])
  | Some children =>
      let (children', changed) := toggle_checked ctrl (snd index) children in
      (update (fst index) children' t,
       List.map
         (fun r =>
            let idx := (fst index, r) in
            dataChanged idx idx [CheckStateRole])
         changed)
  end.

(** Rock is checked among the genres; Pop, Rock, Metal and two languages. *)
Definition sample_tree : tree := [[false; true; false]; [true; false]].

Example plain_click_sample :
  _on_click false (0, 2) sample_tree
  = ([[false; false; true]; [true; false]],
     [dataChanged (0, 2) (0, 2) [CheckStateRole];
      dataChanged (0, 1) (0, 1) [CheckStateRole]]).
Proof. reflexivity. Qed.

Example ctrl_click_sample :
  _on_click true (0, 2) sample_tree
  = ([[false; true; true]; [true; false]],
     [dataChanged (0, 2) (0, 2) [CheckStateRole]]).
Proof. reflexivity. Qed.

(** *** Properties *)

Lemma nth_error_update (A : Type) (i j : nat) (x : A) (l : list A) :
  nth_error (update i x l) j
  = if Nat.eqb j i then option_map (fun _ => x) (nth_error l j)
    else nth_error l j.
Proof.
  revert i j; induction l as [|y l IH]; intros i j.
  - destruct j, i; simpl; try reflexivity.
    destruct (Nat.eqb j i); reflexivity.
  - destruct i as [|i], j as [|j]; simpl; try reflexivity.
    apply IH.
Qed.

Lemma nth_error_uncheck_siblings (row j k : nat) (children : category) :
  nth_error (uncheck_siblings row j children) k
  = if Nat.eqb (j + k) row then nth_error children k
    else option_map (fun _ => false) (nth_error children k).
Proof.
  revert j k; induction children as [|b rest IH]; intros j k.
  - destruct k; simpl; destruct (Nat.eqb _ row); reflexivity.
  - destruct k as [|k]; simpl.
    + rewrite Nat.add_0_r; destruct (Nat.eqb j row); reflexivity.
    + rewrite IH, Nat.add_succ_r; reflexivity.
Qed.

Lemma in_checked_siblings (row j r : nat) (children : category) :
  In r (checked_siblings row j children)
  <-> r <> row /\ j <= r /\ nth_error children (r - j) = Some true.
Proof.
  revert j; induction children as [|b rest IH]; intros j; simpl.
  - split; [tauto|].
    intros (_ & _ & H); destruct (r - j); discriminate.
  - assert (Hrest : In r (checked_siblings row (S j) rest)
                    <-> r <> row /\ j < r
                        /\ nth_error (b :: rest) (r - j) = Some true).
    { rewrite IH; split; intros (Hrow & Hle & Hnth);
        (split; [exact Hrow|]); (split; [lia|]).
      - replace (r - j) with (S (r - S j)) by lia; exact Hnth.
      - replace (r - j) with (S (r - S j)) in Hnth by lia; exact Hnth. }
    destruct (Nat.eq_dec r j) as [-> | Hneq].
    + rewrite Nat.sub_diag; simpl.
      destruct b, (Nat.eqb_spec j row); simpl; rewrite ?Hrest;
        split; intros H; try (destruct H as [H | H]); try tauto; try lia;
        try (destruct H as (? & ? & ?); first [lia | congruence]).
      repeat split; [assumption | lia].
    + destruct (b && negb (Nat.eqb j row)); simpl; rewrite Hrest;
        split; intros H; try (destruct H as [H | H]); try lia;
        try (destruct H as (? & ? & ?); repeat split; (assumption || lia));
        try right; try (destruct H as (? & ? & ?); repeat split;
                        (assumption || lia)).
Qed.

Lemma NoDup_checked_siblings (row j : nat) (children : category) :
  NoDup (checked_siblings row j children).
Proof.
  revert j; induction children as [|b rest IH]; intros j; simpl.
  - constructor.
  - destruct (b && negb (Nat.eqb j row)); [|apply IH].
    constructor; [|apply IH].
    rewrite in_checked_siblings; lia.
Qed.

Lemma uncheck_changes (state : option bool) :
  option_map (fun _ => false) state <> state <-> state = Some true.
Proof.
  destruct state as [[|]|]; simpl; split; intros H;
    congruence || discriminate.
Qed.

(** Within the category: the clicked row is toggled, the other rows are
    kept or unchecked, and the rows returned are those whose state
    changed. *)
Lemma toggle_checked_rows (keep : bool) (row : nat) (children : category)
    (b : bool) :
  nth_error children row = Some b ->
  let after := fst (toggle_checked keep row children) in
  let changed := snd (toggle_checked keep row children) in
  nth_error after row = Some (negb b)
  /\ (forall j, j <> row ->
        nth_error after j
        = if keep then nth_error children j
          else option_map (fun _ => false) (nth_error children j))
  /\ (forall j, In j changed <-> nth_error after j <> nth_error children j)
  /\ NoDup changed.
Proof.
  intros Hrow; unfold toggle_checked; rewrite Hrow.
  assert (Hat : forall j, j <> row ->
            nth_error (update row (negb b) children) j = nth_error children j).
  { intros j Hj; rewrite nth_error_update.
    destruct (Nat.eqb_spec j row); [contradiction | reflexivity]. }
  assert (Hself : nth_error (update row (negb b) children) row
                  = Some (negb b)).
  { rewrite nth_error_update, Nat.eqb_refl, Hrow; reflexivity. }
  destruct keep; cbn [fst snd].
  - split; [exact Hself|].
    split; [exact Hat|].
    split; [|repeat constructor; simpl; tauto].
    intros j; simpl.
    destruct (Nat.eq_dec j row) as [-> | Hj].
    + rewrite Hself, Hrow; split; [destruct b; discriminate | tauto].
    + rewrite (Hat j Hj); split; [intros [H | []]; congruence | tauto].
  - assert (Hun : forall j,
              nth_error (uncheck_siblings row 0 (update row (negb b) children)) j
              = if Nat.eqb j row then Some (negb b)
                else option_map (fun _ => false) (nth_error children j)).
    { intros j; rewrite nth_error_uncheck_siblings; simpl.
      destruct (Nat.eqb_spec j row) as [-> | Hj];
        [exact Hself | rewrite (Hat j Hj); reflexivity]. }
    split; [rewrite Hun, Nat.eqb_refl; reflexivity|].
    split.
    { intros j Hj; rewrite Hun.
      destruct (Nat.eqb_spec j row); [contradiction | reflexivity]. }
    split.
    + intros j; rewrite Hun; simpl.
      destruct (Nat.eqb_spec j row) as [-> | Hj].
      * rewrite Hrow; split; [destruct b; discriminate | tauto].
      * rewrite uncheck_changes, in_checked_siblings, Nat.sub_0_r, (Hat j Hj).
        split.
        -- intros [H | (_ & _ & H)]; [congruence | exact H].
        -- intros H; right; repeat split; [exact Hj | lia | exact H].
    + constructor; [|apply NoDup_checked_siblings].
      rewrite in_checked_siblings; tauto.
Qed.

Definition notify (c : nat) (r : nat) : signal :=
  dataChanged (c, r) (c, r) [CheckStateRole].

Lemma in_notify (c : nat) (rows : list nat) (i : item) :
  In (dataChanged i i [CheckStateRole]) (List.map (notify c) rows)
  <-> fst i = c /\ In (snd i) rows.
Proof.
  rewrite in_map_iff; unfold notify; destruct i as [c' j]; simpl; split.
  - intros [r [E Hin]]; injection E as -> ->; tauto.
  - intros [-> Hin]; exists j; tauto.
Qed.

Lemma NoDup_notify (c : nat) (rows : list nat) :
  NoDup rows -> NoDup (List.map (notify c) rows).
Proof.
  induction 1 as [|r rows Hr Hrows IH]; simpl; constructor; [|exact IH].
  rewrite in_map_iff; intros [r' [E Hin]].
  unfold notify in E; injection E as ->; contradiction.
Qed.

Lemma checked_at_update (t : tree) (c : nat) (children children' : category)
    (i : item) :
  nth_error t c = Some children ->
  checked_at (update c children' t) i
  = if Nat.eqb (fst i) c then nth_error children' (snd i) else checked_at t i.
Proof.
  intros Hc; unfold checked_at; rewrite nth_error_update.
  destruct (Nat.eqb_spec (fst i) c) as [-> | Hneq]; [|reflexivity].
  rewrite Hc; reflexivity.
Qed.

(** C7: a click on a variant toggles it; a plain click leaves every sibling
    in its category unchecked, a click with the modifier held leaves the
    siblings as they were; the other categories are untouched; and a change
    notification is emitted, once, for exactly the items whose checked state
    changed. *)
Theorem on_click_variant (ctrl : bool) (t : tree) (c row : nat) (b : bool) :
  checked_at t (c, row) = Some b ->
  let after := fst (_on_click ctrl (c, row) t) in
  let signals := snd (_on_click ctrl (c, row) t) in
  checked_at after (c, row) = Some (negb b)
  /\ (forall j, j <> row ->
        checked_at after (c, j)
        = if ctrl then checked_at t (c, j)
          else option_map (fun _ => false) (checked_at t (c, j)))
  /\ (forall c' j, c' <> c -> checked_at after (c', j) = checked_at t (c', j))
  /\ (forall i, In (dataChanged i i [CheckStateRole]) signals
                <-> checked_at after i <> checked_at t i)
  /\ (forall s, In s signals -> exists i, s = dataChanged i i [CheckStateRole])
  /\ NoDup signals.
Proof.
  unfold checked_at at 1; cbn [fst snd].
  destruct (nth_error t c) as [children|] eqn:Hc; [|discriminate].
  intros Hrow.
  destruct (toggle_checked_rows ctrl row children Hrow)
    as (Hself & Hsiblings & Hchanged & Hnodup).
  unfold _on_click; cbn [fst snd]; rewrite Hc.
  destruct (toggle_checked ctrl row children) as [children' changed].
  cbn [fst snd] in *.
  fold (notify c).
  assert (Hcat : forall j, checked_at t (c, j) = nth_error children j).
  { intros j; unfold checked_at; cbn [fst snd]; rewrite Hc; reflexivity. }
  split; [|split; [|split; [|split; [|split]]]].
  - rewrite (@checked_at_update t c children _ _ Hc); cbn [fst snd].
    rewrite Nat.eqb_refl; exact Hself.
  - intros j Hj.
    rewrite (@checked_at_update t c children _ _ Hc); cbn [fst snd].
    rewrite Nat.eqb_refl, Hcat; apply Hsiblings, Hj.
  - intros c' j Hc'.
    rewrite (@checked_at_update t c children _ _ Hc); cbn [fst snd].
    destruct (Nat.eqb_spec c' c); [contradiction | reflexivity].
  - intros [c' j].
    rewrite in_notify, (@checked_at_update t c children _ _ Hc); cbn [fst snd].
    destruct (Nat.eqb_spec c' c) as [-> | Hc'].
    + rewrite Hcat, <- Hchanged; tauto.
    + split; [intros [E _]; contradiction | intros H; congruence].
  - intros s Hs; apply in_map_iff in Hs as [r [<- _]].
    exists (c, r); reflexivity.
  - apply NoDup_notify, Hnodup.
Qed.

Lemma on_click_variant_witness :
  checked_at sample_tree (0, 2) = Some false
  /\ checked_at (fst (_on_click false (0, 2) sample_tree)) (0, 2) = Some true
  /\ checked_at (fst (_on_click false (0, 2) sample_tree)) (0, 1) = Some false
  /\ checked_at (fst (_on_click true (0, 2) sample_tree)) (0, 1) = Some true.
Proof.
  split; [reflexivity|].
  split;
    [exact (proj1 (on_click_variant false sample_tree 0 2 (b := false) eq_refl))|].
  split; reflexivity.
Defined.

End Tree.
